(** * Dodgem: the bump pipeline of [index.js]

    A shallow embedding of [index.js] (boot, login, scrapeTrades,
    updateTrades, scheduleUpdateTrades, setLogin and the two CLI commands)
    and the properties of it that the design document states.

    The script drives three things it does not own: the headless browser
    page (puppeteer), the wall clock (moment) and the terminal (ora,
    console).  The browser and the clock are an abstract [Driver]; what the
    script does to them and prints is recorded in a trace of [event]s, so
    that "which calls were made, in which order, and what was reported" can
    be stated.  Every [async] function is a computation in the monad [M]:
    it reads and writes the script's state, appends to the trace, and either
    resolves with a value or rejects with an error. *)

From Stdlib Require Import String Ascii List ZArith Lia Bool DecimalString.
Import ListNotations.
Local Open Scope string_scope.
Local Open Scope Z_scope.
Local Open Scope list_scope.

Set Implicit Arguments.

(* ===================================================================== *)
(** ** JavaScript values *)
(* ===================================================================== *)

(** The values the script handles: [undefined] (an unset preference, an
    array read out of range), strings and whole numbers.  Numbers are [Z]:
    every number of the script is an integer (a count, a delay in
    milliseconds, a number of minutes). *)
Inductive value : Type :=
| VUndefined
| VStr (s : string)
| VNum (n : Z).

(** [v === 'text'] for a string literal on the right. *)
Definition strict_eq_str (v : value) (text : string) : bool :=
  match v with
  | VStr s => String.eqb s text
  | _ => false
  end.

Definition is_digit (c : ascii) : bool :=
  let n := nat_of_ascii c in (48 <=? n)%nat && (n <=? 57)%nat.

Definition digit_value (c : ascii) : Z := Z.of_nat (nat_of_ascii c) - 48.

(** The decimal value of a string of digits, most significant first; the
    empty string has value 0, as JavaScript's [Number('')] has. *)
Fixpoint decimal_acc (acc : Z) (s : string) : Z :=
  match s with
  | EmptyString => acc
  | String c rest => decimal_acc (10 * acc + digit_value c) rest
  end.

Fixpoint all_digits (s : string) : bool :=
  match s with
  | EmptyString => true
  | String c rest => is_digit c && all_digits rest
  end.

(** The largest integer up to which every integer is a JavaScript number
    (a double): [Number.MAX_SAFE_INTEGER], 2^53 - 1. *)
Definition max_safe_integer : Z := 9007199254740991.

(** JavaScript's ToNumber, as the product [1000 * 60 * minutes] applies it
    to [minutes].  A number is itself; a text of decimal digits whose
    decimal value is a safe integer is that value, exactly.  [None] stands
    for every case this model does not compute: NaN (for [undefined]), a
    text of digits beyond the safe integers (the code has the nearest
    double there, or Infinity), and a text that is not made of digits only
    (which never passes the command line's validation). *)
Definition to_number (v : value) : option Z :=
  match v with
  | VNum n => Some n
  | VStr s =>
      if all_digits s && (decimal_acc 0 s <=? max_safe_integer)
      then Some (decimal_acc 0 s) else None
  | VUndefined => None
  end.

(** [a * b] on numbers: the exact product while it is a safe integer (the
    product of two doubles that are integers is then exact); [None] when
    an operand is [None] or the product is beyond the safe integers. *)
Definition js_mul (a : Z) (b : option Z) : option Z :=
  match b with
  | Some n =>
      if Z.abs (a * n) <=? max_safe_integer then Some (a * n) else None
  | None => None
  end.

(** The delay Node's [setTimeout] applies for the delay it is asked for:
    a delay that is not between 1 and 2^31 - 1 ms (NaN included) is set to
    1 ms.  A [None] that stands for a number beyond the safe integers is
    above 2^31 - 1 and is set to 1 as well. *)
Definition TIMEOUT_MAX : Z := 2147483647.

Definition effective_delay (requested : option Z) : Z :=
  match requested with
  | Some ms => if (1 <=? ms) && (ms <=? TIMEOUT_MAX) then ms else 1
  | None => 1
  end.

(** [array[i]]: the element at index [i], [undefined] out of range (a
    negative index included: [tradeUrls[-1]] is a property that does not
    exist). *)
Definition js_index (array : list value) (i : Z) : value :=
  if i <? 0 then VUndefined else nth (Z.to_nat i) array VUndefined.

(** [array.length] *)
Definition js_length (array : list value) : Z := Z.of_nat (length array).

(* ===================================================================== *)
(** ** Preferences, arguments, messages *)
(* ===================================================================== *)

(** [prefs = new Preferences('com.jamiestraw.dodgem')]: the stored
    credential record.  A field that was never set reads [undefined]. *)
Record Prefs : Type := mkPrefs {
  username : value;
  emailAddress : value;
  password : value
}.

(** [args] of the bump command.  ([opts] is threaded through the pipeline
    and never read; it is left out.) *)
Record Args : Type := mkArgs {
  target : value;
  interval : value
}.

(** What [prompt.get] hands to its callback on success. *)
Record Credentials : Type := mkCredentials {
  c_username : string;
  c_emailAddress : string;
  c_password : string
}.

Definition error : Type := string.

(** The CSS selectors of the script. *)
Inductive selector : Type :=
| SelEmail        (* '.rlg-form .rlg-input[type="email"]' *)
| SelPassword     (* '.rlg-form .rlg-input[type="password"]' *)
| SelLoginSubmit  (* '.rlg-form .rlg-btn-primary[type="submit"]' *)
| SelEditTrade    (* "[href^='/trade/edit']" *)
| SelSaveTrade.   (* '#rlg-addTradeForm input[type=submit]' *)

(** The texts the script prints, by template; the interpolated values are
    the constructor's arguments (colours left out). *)
Inductive message : Type :=
| MsgBanner
| MsgBlank
| MsgWillBump (what : string) (every : value)
    (* `${projectName} will bump ${target} every ${args.interval} minutes` *)
| MsgLoggingIn (email : value)        (* `Logging in as: ${prefs.emailAddress}` *)
| MsgLoggedIn (email : value)         (* `Logged in as: ${prefs.emailAddress}` *)
| MsgFinding                          (* 'Finding active trades' *)
| MsgFound (n : Z) (plural : bool)    (* `Found ${n} active trade${n === 1 ? '' : 's'}` *)
| MsgBumpingOldest                    (* 'Bumping oldest active trade' *)
| MsgBumping (humanIndex : Z) (total : Z)
    (* `Bumping trade ${humanIndex}/${tradeUrls.length}` *)
| MsgBumpedOldest (secondsElapsed : Z)
    (* `Bumped oldest active trade (${secondsElapsed} seconds)` *)
| MsgBumped (humanIndex : Z) (total : Z) (secondsElapsed : Z)
    (* `Bumped trade ${humanIndex}/${tradeUrls.length} (${secondsElapsed} seconds)` *)
| MsgFailedOldest (secondsElapsed : Z)
    (* `Failed to bump oldest active trade (${secondsElapsed} seconds)` *)
| MsgFailed (humanIndex : Z) (total : Z) (secondsElapsed : Z)
    (* `Failed to bump trade ${humanIndex}/${tradeUrls.length} (${secondsElapsed} seconds)` *)
| MsgRunAgain (now : Z) (minutes : value)
    (* `${projectName} will run again at: ${nextRunTs}`, where nextRunTs is
       moment().add(minutes, 'minutes') formatted as HH:mm:ss *)
| MsgEnterCredentials  (* 'Please enter login credentials for Rocket League Garage' *)
| MsgLoginAborted      (* '\n\nLogin aborted' *)
| MsgSaving (email : string)   (* `Saving credentials for: ${credentials.emailAddress}` *)
| MsgSaved (email : string).   (* `Credentials verified and saved for: ${...}` *)

(* ===================================================================== *)
(** ** The page driver, the clock, and the trace *)
(* ===================================================================== *)

(** The calls the script makes on puppeteer. *)
Inductive call : Type :=
| Launch                          (* puppeteer.launch() *)
| NewPage                         (* browser.newPage() *)
| Goto (url : value)              (* page.goto(url) *)
| Focus (sel : selector)          (* page.focus(selector) *)
| TypeText (text : value)         (* page.type(text) *)
| Click (sel : selector)          (* page.click(selector) *)
| WaitForNavigation.              (* page.waitForNavigation() *)

(** The world outside the script.  A call changes the world and either
    resolves ([None]) or throws ([Some e]); [evaluate_hrefs] is the one
    [page.evaluate] of the script, which returns the [href] of every
    anchor matching '.rlg-trade-display-header > a' in document order;
    [read_clock] is [moment()], in milliseconds. *)
Class Driver (W : Type) : Type := {
  perform : call -> W -> W * option error;
  evaluate_hrefs : W -> W * (error + list string);
  read_clock : W -> W * Z
}.

Inductive spinner_action : Type := SpStart | SpSucceed | SpFail | SpInfo.

Inductive event : Type :=
| EPage (c : call) (thrown : option error)
| EEvaluate (r : error + list string)
| EClock (t : Z)
| ESpinner (a : spinner_action) (m : message)
| EConsole (m : message)
| ESetTimeout (delay : option Z)
| ETimerFired (delay : option Z)
| EUnhandledRejection (e : error).

(** A pending [setTimeout]: its delay and the [args] its callback closes
    over.  The script has one callback only, the arrow function of
    [scheduleUpdateTrades], so a timer need not say which. *)
Record Timer : Type := mkTimer {
  delay : option Z;
  timer_args : Args
}.

(** The state of a run: the world, the module-wide [prefs] object and the
    timers of the event loop. *)
Record State (W : Type) : Type := mkState {
  world : W;
  prefs : Prefs;
  timers : list Timer
}.

(* ===================================================================== *)
(** ** The monad of async functions *)
(* ===================================================================== *)

Inductive result (A : Type) : Type :=
| Ok (a : A)
| Err (e : error).
Arguments Ok {A} a.
Arguments Err {A} e.

Record Run (W A : Type) : Type := mkRun {
  res : result A;
  final : State W;
  emitted : list event
}.

Definition M (W A : Type) : Type := State W -> Run W A.

Definition ret {W A} (a : A) : M W A :=
  fun st => mkRun (Ok a) st [].

(** [await m; f] and [m.then(f)]: a rejection skips [f]. *)
Definition bind {W A B} (m : M W A) (f : A -> M W B) : M W B :=
  fun st =>
    match m st with
    | mkRun (Ok a) st1 tr1 =>
        match f a st1 with
        | mkRun r st2 tr2 => mkRun r st2 (tr1 ++ tr2)
        end
    | mkRun (Err e) st1 tr1 => mkRun (Err e) st1 tr1
    end.

(** [try { m } catch (error) { h error }] *)
Definition try_catch {W A} (m : M W A) (h : error -> M W A) : M W A :=
  fun st =>
    match m st with
    | mkRun (Ok a) st1 tr1 => mkRun (Ok a) st1 tr1
    | mkRun (Err e) st1 tr1 =>
        match h e st1 with
        | mkRun r st2 tr2 => mkRun r st2 (tr1 ++ tr2)
        end
    end.

Declare Scope js_scope.
Delimit Scope js_scope with js.
Notation "x <- m ;; k" := (bind m (fun x => k))
  (at level 61, m at next level, right associativity) : js_scope.
Notation "m ;; k" := (bind m (fun _ => k))
  (at level 61, right associativity) : js_scope.
Local Open Scope js_scope.

Definition emit {W} (e : event) : M W unit :=
  fun st => mkRun (Ok tt) st [e].

Definition set_world {W} (st : State W) (w : W) : State W :=
  mkState w (prefs st) (timers st).

Definition set_prefs {W} (st : State W) (p : Prefs) : State W :=
  mkState (world st) p (timers st).

Definition set_timers {W} (st : State W) (ts : list Timer) : State W :=
  mkState (world st) (prefs st) ts.

(** [await page.<call>] *)
Definition page {W} `{Driver W} (c : call) : M W unit :=
  fun st =>
    let (w, thrown) := perform c (world st) in
    mkRun (match thrown with None => Ok tt | Some e => Err e end)
          (set_world st w) [EPage c thrown].

(** [await page.evaluate(() => anchors.map(anchor => anchor.href))] *)
Definition page_evaluate {W} `{Driver W} : M W (list value) :=
  fun st =>
    let (w, r) := evaluate_hrefs (world st) in
    mkRun (match r with inr hrefs => Ok (map VStr hrefs) | inl e => Err e end)
          (set_world st w) [EEvaluate r].

(** [moment()] *)
Definition moment {W} `{Driver W} : M W Z :=
  fun st =>
    let (w, t) := read_clock (world st) in
    mkRun (Ok t) (set_world st w) [EClock t].

Definition get_prefs {W} : M W Prefs :=
  fun st => mkRun (Ok (prefs st)) st [].

Definition put_prefs {W} (p : Prefs) : M W unit :=
  fun st => mkRun (Ok tt) (set_prefs st p) [].

(** [setTimeout(callback, delay)] *)
Definition setTimeout {W} (a : Args) (d : option Z) : M W unit :=
  fun st =>
    mkRun (Ok tt) (set_timers st (timers st ++ [mkTimer d a])) [ESetTimeout d].

Definition spinner {W} (a : spinner_action) (m : message) : M W unit :=
  emit (ESpinner a m).

Definition console_log {W} (m : message) : M W unit :=
  emit (EConsole m).

Definition pref {W} (field : Prefs -> value) : M W value :=
  fun st => mkRun (Ok (field (prefs st))) st [].

(** The text of a value inside a template literal. *)
Definition to_string (v : value) : string :=
  match v with
  | VUndefined => "undefined"
  | VStr s => s
  | VNum n => DecimalString.NilZero.string_of_int (Z.to_int n)
  end.

(** [moment().diff(start, 'seconds')] for two clock readings in
    milliseconds: moment divides the difference by 1000 and, without the
    third argument, truncates the quotient towards zero. *)
Definition diff_seconds (now start : Z) : Z := Z.quot (now - start) 1000.

(** [`https://rocket-league.com/trades/${prefs.username}`] *)
Definition trades_url (user : value) : value :=
  VStr ("https://rocket-league.com/trades/" ++ to_string user).

(* ===================================================================== *)
(** ** The script *)
(* ===================================================================== *)

Section Script.
Context {W : Type} `{Driver W}.

(** [boot (args, opts)] *)
Definition boot (args : Args) : M W unit :=
  console_log MsgBanner ;;
  page Launch ;;
  page NewPage ;;
  let what := if strict_eq_str (target args) "oldest"
              then "the oldest trade" else "all trades" in
  spinner SpInfo (MsgWillBump what (interval args)).

(** [login ([page, args, opts])] *)
Definition login : M W unit :=
  email <- pref emailAddress ;;
  spinner SpStart (MsgLoggingIn email) ;;
  page (Goto (VStr "https://rocket-league.com/login")) ;;
  (* Email Address *)
  page (Focus SelEmail) ;;
  email <- pref emailAddress ;;
  page (TypeText email) ;;
  (* Password *)
  page (Focus SelPassword) ;;
  pw <- pref password ;;
  page (TypeText pw) ;;
  (* Submit *)
  page (Click SelLoginSubmit) ;;
  page WaitForNavigation ;;
  email <- pref emailAddress ;;
  spinner SpSucceed (MsgLoggedIn email).

(** Line 100: [if (args.target === 'oldest') tradeUrls =
    [tradeUrls[tradeUrls.length - 1]]]. *)
Definition select_target (args : Args) (tradeUrls : list value) : list value :=
  if strict_eq_str (target args) "oldest"
  then [js_index tradeUrls (js_length tradeUrls - 1)]
  else tradeUrls.

(** [scrapeTrades ([page, args, opts])]; resolves with [tradeUrls]. *)
Definition scrapeTrades (args : Args) : M W (list value) :=
  (* Navigate to trades *)
  spinner SpStart MsgFinding ;;
  user <- pref username ;;
  page (Goto (trades_url user)) ;;
  (* Scrape trades *)
  tradeUrls <- page_evaluate ;;
  spinner SpSucceed (MsgFound (js_length tradeUrls)
                              (negb (js_length tradeUrls =? 1))) ;;
  ret (select_target args tradeUrls).

(** The body of the [try] block of [updateTrades], up to the second
    reading of the clock. *)
Definition bump_steps (tradeUrl : value) : M W unit :=
  (* Navigate to trade *)
  page (Goto tradeUrl) ;;
  (* Edit trade *)
  page (Click SelEditTrade) ;;
  page WaitForNavigation ;;
  (* Save *)
  page (Click SelSaveTrade) ;;
  page WaitForNavigation.

Definition bumping_message (args : Args) (humanIndex total : Z) : message :=
  if strict_eq_str (target args) "oldest"
  then MsgBumpingOldest else MsgBumping humanIndex total.

Definition bumped_message (args : Args) (humanIndex total secondsElapsed : Z)
  : message :=
  if strict_eq_str (target args) "oldest"
  then MsgBumpedOldest secondsElapsed
  else MsgBumped humanIndex total secondsElapsed.

Definition failed_message (args : Args) (humanIndex total secondsElapsed : Z)
  : message :=
  if strict_eq_str (target args) "oldest"
  then MsgFailedOldest secondsElapsed
  else MsgFailed humanIndex total secondsElapsed.

(** One iteration of the [for] loop of [updateTrades]. *)
Definition bump_trade (args : Args) (total : Z) (index : Z) (tradeUrl : value)
  : M W unit :=
  let humanIndex := index + 1 in
  start <- moment ;;
  spinner SpStart (bumping_message args humanIndex total) ;;
  try_catch
    (bump_steps tradeUrl ;;
     now <- moment ;;
     let secondsElapsed := diff_seconds now start in
     spinner SpSucceed (bumped_message args humanIndex total secondsElapsed))
    (fun _ =>
     now <- moment ;;
     let secondsElapsed := diff_seconds now start in
     spinner SpFail (failed_message args humanIndex total secondsElapsed)).

(** [for (let [index, tradeUrl] of tradeUrls.entries()) body], from
    [index] on. *)
Fixpoint for_entries (body : Z -> value -> M W unit) (index : Z)
  (entries : list value) : M W unit :=
  match entries with
  | [] => ret tt
  | tradeUrl :: rest =>
      body index tradeUrl ;; for_entries body (index + 1) rest
  end.

(** [updateTrades ([page, args, opts, tradeUrls])] *)
Definition updateTrades (args : Args) (tradeUrls : list value) : M W unit :=
  for_entries (bump_trade args (js_length tradeUrls)) 0 tradeUrls.

(** [scheduleUpdateTrades ([page, args, opts])]: prints the next run time
    and registers the timer; the timer's callback is [timer_callback]. *)
Definition scheduleUpdateTrades (args : Args) : M W unit :=
  let minutes := interval args in
  now <- moment ;;
  spinner SpInfo (MsgRunAgain now minutes) ;;
  setTimeout args (js_mul (1000 * 60) (to_number minutes)).

(** The arrow function given to [setTimeout]:
    [scrapeTrades([page, args, opts]).then(updateTrades)
       .then(scheduleUpdateTrades)]. *)
Definition timer_callback (args : Args) : M W unit :=
  tradeUrls <- scrapeTrades args ;;
  updateTrades args tradeUrls ;;
  scheduleUpdateTrades args.

(** The action of the bump command:
    [boot(args, opts).then(login).then(scrapeTrades).then(updateTrades)
       .then(scheduleUpdateTrades)]. *)
Definition bump_action (args : Args) : M W unit :=
  boot args ;;
  login ;;
  tradeUrls <- scrapeTrades args ;;
  updateTrades args tradeUrls ;;
  scheduleUpdateTrades args.

(** Neither promise chain has a [catch]: a rejection is left unhandled. *)
Definition unhandled (r : Run W unit) : State W * list event :=
  (final r,
   emitted r ++ match res r with
                | Ok _ => []
                | Err e => [EUnhandledRejection e]
                end).

(** The event loop after the action has run: while a timer is pending the
    oldest one fires and its callback runs to completion; [fuel] bounds the
    number of firings looked at. *)
Fixpoint event_loop (fuel : nat) (st : State W) : State W * list event :=
  match fuel with
  | O => (st, [])
  | S fuel' =>
      match timers st with
      | [] => (st, [])
      | t :: pending =>
          let (st1, tr1) :=
            unhandled (timer_callback (timer_args t) (set_timers st pending)) in
          let (st2, tr2) := event_loop fuel' st1 in
          (st2, ETimerFired (delay t) :: tr1 ++ tr2)
      end
  end.

(** [dodgem bump <target> <interval>], watched for [fuel] timer firings. *)
Definition run_bump (fuel : nat) (args : Args) (st : State W)
  : State W * list event :=
  let (st1, tr1) := unhandled (bump_action args st) in
  let (st2, tr2) := event_loop fuel st1 in
  (st2, tr1 ++ tr2).

(** The callback of [prompt.get] in [setLogin]: [(error, credentials) =>
    ...]; [error] is null ([None]) when the prompt succeeded. *)
Definition setLogin_callback (error_ : option error) (credentials : Credentials)
  : M W unit :=
  match error_ with
  | Some _ => console_log MsgLoginAborted
  | None =>
      spinner SpStart (MsgSaving (c_emailAddress credentials)) ;;
      spinner SpSucceed (MsgSaved (c_emailAddress credentials)) ;;
      p <- get_prefs ;;
      put_prefs (mkPrefs (VStr (c_username credentials)) (emailAddress p) (password p)) ;;
      p <- get_prefs ;;
      put_prefs (mkPrefs (username p) (VStr (c_emailAddress credentials)) (password p)) ;;
      p <- get_prefs ;;
      put_prefs (mkPrefs (username p) (emailAddress p) (VStr (c_password credentials)))
  end.

(** [setLogin ()]; what the prompt will hand to the callback is the
    argument. *)
Definition setLogin (error_ : option error) (credentials : Credentials)
  : M W unit :=
  console_log MsgBlank ;;
  spinner SpInfo MsgEnterCredentials ;;
  setLogin_callback error_ credentials.

End Script.

(* ===================================================================== *)
(** ** The command line of [bump] *)
(* ===================================================================== *)

(** An argument as [.argument(synopsis, description, validator, default)]
    declares it; the synopsis ['<name>'] declares a required argument,
    ['[name]'] an optional one. *)
Record Argument : Type := mkArgument {
  arg_required : bool;
  arg_validator : string -> bool;
  arg_default : value
}.

(** ['<target>'], the array ['all', 'oldest'], 'all'. *)
Definition target_argument : Argument :=
  mkArgument true
    (fun s => String.eqb s "all" || String.eqb s "oldest") (VStr "all").

(** ['<interval>'], the regular expression [/^\d*$/] (every character of
    the text is a decimal digit), 15. *)
Definition interval_argument : Argument := mkArgument true all_digits (VNum 15).

(** Validation of a given text: the command receives the text when the
    validator accepts it, and is not run otherwise. *)
Definition validate (a : Argument) (given : string) : result value :=
  if arg_validator a given then Ok (VStr given)
  else Err "invalid argument value".

(** What the command receives for an argument of the call: a given text is
    validated; when none is given, caporal refuses the call if the
    argument is required and applies the default if it is optional. *)
Definition receive (a : Argument) (given : option string) : result value :=
  match given with
  | Some s => validate a s
  | None =>
      if arg_required a then Err "wrong number of arguments"
      else Ok (arg_default a)
  end.

(* ===================================================================== *)
(** ** Reading a trace *)
(* ===================================================================== *)

(** A page call that resolved. *)
Definition resolved (c : call) : event := EPage c None.

Definition login_url : value := VStr "https://rocket-league.com/login".

(** The page calls of [login], in program order. *)
Definition login_script (p : Prefs) : list call :=
  [ Goto login_url; Focus SelEmail; TypeText (emailAddress p);
    Focus SelPassword; TypeText (password p);
    Click SelLoginSubmit; WaitForNavigation ].

(** The page calls of one bump: step 1 (navigate), step 2 (edit, wait),
    step 3 (save, wait). *)
Definition bump_script (tradeUrl : value) : list call :=
  [ Goto tradeUrl; Click SelEditTrade; WaitForNavigation;
    Click SelSaveTrade; WaitForNavigation ].

(** The URLs a trace navigates to. *)
Definition attempted (tr : list event) : list value :=
  flat_map (fun e => match e with
                     | EPage (Goto url) _ => [url]
                     | _ => []
                     end) tr.

Inductive outcome : Type := SUCCESS | FAILURE.

(** One line of the cycle's report, as the operator reads it off the
    spinner: the outcome, the position printed (none when the target is
    the oldest trade) and the seconds printed. *)
Record BumpResult : Type := mkBumpResult {
  br_outcome : outcome;
  br_humanIndex : option Z;
  br_elapsedSeconds : Z
}.

Definition report_line (e : event) : list BumpResult :=
  match e with
  | ESpinner SpSucceed (MsgBumped i _ s) => [mkBumpResult SUCCESS (Some i) s]
  | ESpinner SpSucceed (MsgBumpedOldest s) => [mkBumpResult SUCCESS None s]
  | ESpinner SpFail (MsgFailed i _ s) => [mkBumpResult FAILURE (Some i) s]
  | ESpinner SpFail (MsgFailedOldest s) => [mkBumpResult FAILURE None s]
  | _ => []
  end.

(** The report a trace renders: its succeeded and failed bump lines, in
    order. *)
Definition cycle_report (tr : list event) : list BumpResult :=
  flat_map report_line tr.

(** The printed position of the bump at [index]. *)
Definition printed_index (args : Args) (index : Z) : option Z :=
  if strict_eq_str (target args) "oldest" then None else Some (index + 1).

(** What one iteration of the loop may leave in the trace, and the line it
    reports.  Either all five calls resolve and the bump is reported
    succeeded, or the first [k] resolve, the next one throws [e], no call
    follows and the bump is reported failed.  Both readings of the clock
    are in the trace: [t0] before the spinner starts, [t1] after the last
    call made. *)
Inductive bump_segment (args : Args) (total index : Z) (tradeUrl : value)
  : list event -> BumpResult -> Prop :=
| segment_succeeded (t0 t1 : Z) :
    bump_segment args total index tradeUrl
      ([EClock t0; ESpinner SpStart (bumping_message args (index + 1) total)]
         ++ map resolved (bump_script tradeUrl)
         ++ [EClock t1;
             ESpinner SpSucceed
               (bumped_message args (index + 1) total (diff_seconds t1 t0))])
      (mkBumpResult SUCCESS (printed_index args index) (diff_seconds t1 t0))
| segment_failed (t0 t1 : Z) (k : nat) (c : call) (e : error) :
    nth_error (bump_script tradeUrl) k = Some c ->
    bump_segment args total index tradeUrl
      ([EClock t0; ESpinner SpStart (bumping_message args (index + 1) total)]
         ++ map resolved (firstn k (bump_script tradeUrl))
         ++ [EPage c (Some e); EClock t1;
             ESpinner SpFail
               (failed_message args (index + 1) total (diff_seconds t1 t0))])
      (mkBumpResult FAILURE (printed_index args index) (diff_seconds t1 t0)).

(** A trace and a report made of one segment and one line per URL, from
    [index] on. *)
Inductive bump_segments (args : Args) (total : Z)
  : Z -> list value -> list event -> list BumpResult -> Prop :=
| segments_nil (index : Z) : bump_segments args total index [] [] []
| segments_cons (index : Z) (tradeUrl : value) (rest : list value)
    (seg tr : list event) (line : BumpResult) (lines : list BumpResult) :
    bump_segment args total index tradeUrl seg line ->
    bump_segments args total (index + 1) rest tr lines ->
    bump_segments args total index (tradeUrl :: rest)
      (seg ++ tr) (line :: lines).

(** The stages of the pipeline a trace shows: each is recognised by what
    only that stage does. *)
Inductive stage : Type :=
| Fired (d : option Z)        (* a timer of delay [d] expired *)
| Authenticating              (* login: its spinner, focus, type, submit *)
| Discovery                   (* scrapeTrades: 'Finding active trades' *)
| Bumping                     (* updateTrades: one bump started *)
| Scheduled (d : option Z).   (* scheduleUpdateTrades: setTimeout(_, d) *)

Definition stage_of (e : event) : list stage :=
  match e with
  | ETimerFired d => [Fired d]
  | ESpinner SpStart (MsgLoggingIn _) => [Authenticating]
  | ESpinner _ (MsgLoggedIn _) => [Authenticating]
  | EPage (Focus _) _ => [Authenticating]
  | EPage (TypeText _) _ => [Authenticating]
  | EPage (Click SelLoginSubmit) _ => [Authenticating]
  | ESpinner SpStart MsgFinding => [Discovery]
  | ESpinner SpStart MsgBumpingOldest => [Bumping]
  | ESpinner SpStart (MsgBumping _ _) => [Bumping]
  | ESetTimeout d => [Scheduled d]
  | _ => []
  end.

Definition stages (tr : list event) : list stage := flat_map stage_of tr.

(** [n] full cycles, each started by a timer of delay [d]: discovery, then
    some number of bumps, then a new timer of the same delay. *)
Inductive cycle_stages (d : option Z) : nat -> list stage -> Prop :=
| cycles_none : cycle_stages d 0 []
| cycles_more (n bumps : nat) (rest : list stage) :
    cycle_stages d n rest ->
    cycle_stages d (S n)
      (Fired d :: Discovery :: repeat Bumping bumps ++ Scheduled d :: rest).

(** The delay [scheduleUpdateTrades] asks [setTimeout] for, in
    milliseconds: [1000 * 60 * minutes]. *)
Definition requested_delay (args : Args) : option Z :=
  js_mul 60000 (to_number (interval args)).

(** A computation that leaves the stored credentials as they were. *)
Definition keeps_prefs {W A} (m : M W A) : Prop :=
  forall st, prefs (final (m st)) = prefs st.

(** A duration in milliseconds rounded to the nearest whole second (halves
    up), for comparison with [diff_seconds]. *)
Definition nearest_second (ms : Z) : Z := (ms + 500) / 1000.

(** A string with a digit other than 0. *)
Fixpoint has_nonzero_digit (s : string) : bool :=
  match s with
  | EmptyString => false
  | String c rest => negb (Ascii.eqb c "0") || has_nonzero_digit rest
  end.

(* ===================================================================== *)
(** ** A simulated site, for concrete runs *)
(* ===================================================================== *)

(** A browser that is at [sim_location], shows the anchors [sim_anchors]
    on every page, and whose clock reads [sim_now]. *)
Record Sim : Type := mkSim {
  sim_now : Z;
  sim_location : value;
  sim_anchors : list string
}.

(** Every call takes [step] milliseconds; it throws when [throws] says so
    for the page the browser is then at. *)
Definition sim_perform (throws : value -> call -> bool) (step : Z)
  (c : call) (w : Sim) : Sim * option error :=
  let location := match c with Goto url => url | _ => sim_location w end in
  (mkSim (sim_now w + step) location (sim_anchors w),
   if throws location c then Some "TimeoutError" else None).

Definition SimDriver (throws : value -> call -> bool) (step : Z) : Driver Sim :=
  {| perform := sim_perform throws step;
     evaluate_hrefs := fun w => (w, inr (sim_anchors w));
     read_clock := fun w => (w, sim_now w) |}.

Definition never (_ : value) (_ : call) : bool := false.

(** Clicking the login form's submit button times out. *)
Definition submit_times_out (_ : value) (c : call) : bool :=
  match c with Click SelLoginSubmit => true | _ => false end.

(** No trade can be saved: the save button is never found. *)
Definition save_fails (_ : value) (c : call) : bool :=
  match c with Click SelSaveTrade => true | _ => false end.

(** The edit link of the trade at [url] is missing. *)
Definition edit_fails_at (url : string) (location : value) (c : call) : bool :=
  match c with
  | Click SelEditTrade => strict_eq_str location url
  | _ => false
  end.

(** Navigating to [undefined] is refused, as puppeteer does. *)
Definition undefined_url_throws (_ : value) (c : call) : bool :=
  match c with Goto VUndefined => true | _ => false end.

Definition sim_prefs : Prefs :=
  mkPrefs (VStr "joe") (VStr "joe@example.com") (VStr "hunter2").

Definition sim_state (anchors : list string) : State Sim :=
  mkState (mkSim 0 VUndefined anchors) sim_prefs [].

(** The [args] of [dodgem bump all 15] and of [dodgem bump oldest 15] (the
    second with its interval already the number 15). *)
Definition all_args : Args := mkArgs (VStr "all") (VStr "15").
Definition oldest_args : Args := mkArgs (VStr "oldest") (VNum 15).

(** The scenario of three listings, newest first. *)
Definition three_trades : list string := ["urlA"; "urlB"; "urlC"].

(* ===================================================================== *)
(** ** Further readings of a trace and of the state *)
(* ===================================================================== *)

(** The page calls of a trace, each with what it threw. *)
Definition page_calls (tr : list event) : list (call * option error) :=
  flat_map (fun e => match e with
                     | EPage c thrown => [(c, thrown)]
                     | _ => []
                     end) tr.

(** The page calls of a trace that threw. *)
Definition thrown_calls (tr : list event) : list (call * error) :=
  flat_map (fun e => match e with
                     | EPage c (Some e) => [(c, e)]
                     | _ => []
                     end) tr.

(** The failed lines of a report. *)
Definition failures (lines : list BumpResult) : list BumpResult :=
  filter (fun line => match br_outcome line with
                      | FAILURE => true
                      | SUCCESS => false
                      end) lines.

(** The messages with which a spinner was started. *)
Definition started (tr : list event) : list message :=
  flat_map (fun e => match e with
                     | ESpinner SpStart m => [m]
                     | _ => []
                     end) tr.

(** The counts 'Found N active trades' of a trace. *)
Definition found_counts (tr : list event) : list Z :=
  flat_map (fun e => match e with
                     | ESpinner SpSucceed (MsgFound n _) => [n]
                     | _ => []
                     end) tr.

(** [index], [index + 1], ...: the [n] values the loop variable [index]
    takes from [index] on. *)
Fixpoint count_from (index : Z) (n : nat) : list Z :=
  match n with
  | O => []
  | S n' => index :: count_from (index + 1) n'
  end.

(** A computation that does not read the stored credentials: run with
    other credentials it does the same and leaves them in place. *)
Definition ignores_prefs {W A} (m : M W A) : Prop :=
  forall (st : State W) (p : Prefs),
    m (set_prefs st p) =
      mkRun (res (m st)) (set_prefs (final (m st)) p) (emitted (m st)).

(** The record [setLogin] stores for the answers [credentials]. *)
Definition saved (credentials : Credentials) : Prefs :=
  mkPrefs (VStr (c_username credentials))
          (VStr (c_emailAddress credentials))
          (VStr (c_password credentials)).

(** The browser cannot be launched. *)
Definition launch_fails (_ : value) (c : call) : bool :=
  match c with Launch => true | _ => false end.

(** The user's trade page does not load; every other page does. *)
Definition trade_page_down (_ : value) (c : call) : bool :=
  match c with
  | Goto (VStr url) => String.prefix "https://rocket-league.com/trades/" url
  | _ => false
  end.

(** A state of the simulated site in which the scheduler's timer is
    pending. *)
Definition sim_waiting (anchors : list string) (args : Args) : State Sim :=
  mkState (mkSim 0 VUndefined anchors) sim_prefs
          [mkTimer (requested_delay args) args].



(* ===================================================================== *)
(** ** Tactics *)
(* ===================================================================== *)

(** Unfolds the primitives of the monad; the calls on the driver stay. *)
Ltac unfold_js :=
  unfold bind, try_catch, ret, emit, spinner, console_log, page, page_evaluate,
    moment, pref, get_prefs, put_prefs, setTimeout in *.

(** Case analysis on the next call of the goal: it throws or it resolves. *)
Ltac next_call :=
  match goal with
  | |- context [perform ?c ?w] =>
      let e := fresh "e" in
      let w' := fresh "w" in
      destruct (perform c w) as [w' [e|]]; cbn
  end.

Ltac next_clock :=
  match goal with
  | |- context [read_clock ?w] =>
      let t := fresh "t" in
      let w' := fresh "w" in
      destruct (read_clock w) as [w' t]; cbn
  end.

(** The position of a call in the five-call script. *)
Ltac script_position k Hk :=
  destruct k as [|[|[|[|[|k]]]]]; cbn in Hk;
  [ injection Hk as <- .. | destruct k; discriminate Hk ].

Ltac by_target args :=
  unfold bumping_message, bumped_message, failed_message, printed_index;
  destruct (strict_eq_str (target args) "oldest"); reflexivity.

(* ===================================================================== *)
(** ** Running a computation *)
(* ===================================================================== *)

Section Proofs.
Context {W : Type} `{Driver W}.

Lemma bind_resolved {A B} (m : M W A) (f : A -> M W B) (st : State W) (a : A) :
  res (m st) = Ok a ->
  bind m f st =
    mkRun (res (f a (final (m st)))) (final (f a (final (m st))))
          (emitted (m st) ++ emitted (f a (final (m st)))).
Proof.
  unfold bind. destruct (m st) as [r st1 tr1]; cbn. intros ->.
  destruct (f a st1); reflexivity.
Qed.

Lemma bind_rejected {A B} (m : M W A) (f : A -> M W B) (st : State W) (e : error) :
  res (m st) = Err e ->
  bind m f st = mkRun (Err e) (final (m st)) (emitted (m st)).
Proof.
  unfold bind. destruct (m st) as [r st1 tr1]; cbn. intros ->. reflexivity.
Qed.

(* ===================================================================== *)
(** ** updateTrades *)
(* ===================================================================== *)

(** One iteration never rejects, touches neither the timers nor the
    credentials, and leaves one segment. *)
Lemma bump_trade_spec (args : Args) (total index : Z) (tradeUrl : value)
  (st : State W) :
  exists st' seg line,
    bump_trade args total index tradeUrl st = mkRun (Ok tt) st' seg /\
    timers st' = timers st /\ prefs st' = prefs st /\
    bump_segment args total index tradeUrl seg line.
Proof.
  unfold bump_trade, bump_steps. unfold_js.
  next_clock.
  next_call;
    [ next_clock; do 3 eexists; repeat split;
      eapply (segment_failed _ _ _ _ _ _ 0); reflexivity | ].
  next_call;
    [ next_clock; do 3 eexists; repeat split;
      eapply (segment_failed _ _ _ _ _ _ 1); reflexivity | ].
  next_call;
    [ next_clock; do 3 eexists; repeat split;
      eapply (segment_failed _ _ _ _ _ _ 2); reflexivity | ].
  next_call;
    [ next_clock; do 3 eexists; repeat split;
      eapply (segment_failed _ _ _ _ _ _ 3); reflexivity | ].
  next_call;
    [ next_clock; do 3 eexists; repeat split;
      eapply (segment_failed _ _ _ _ _ _ 4); reflexivity | ].
  next_clock. do 3 eexists; repeat split. apply segment_succeeded.
Qed.

Lemma for_entries_spec (args : Args) (total : Z) (tradeUrls : list value) :
  forall (index : Z) (st : State W),
  exists st' tr lines,
    for_entries (bump_trade args total) index tradeUrls st
      = mkRun (Ok tt) st' tr /\
    timers st' = timers st /\ prefs st' = prefs st /\
    bump_segments args total index tradeUrls tr lines.
Proof.
  induction tradeUrls as [|tradeUrl rest IH]; intros index st; cbn [for_entries].
  - exists st, [], []. repeat split. constructor.
  - destruct (bump_trade_spec args total index tradeUrl st)
      as (st1 & seg & line & Hrun & Ht & Hp & Hseg).
    destruct (IH (index + 1) st1) as (st2 & tr & lines & Hrest & Ht2 & Hp2 & Hsegs).
    exists st2, (seg ++ tr), (line :: lines).
    rewrite (bind_resolved _ _ _ (a := tt)) by (rewrite Hrun; reflexivity).
    rewrite Hrun; cbn. rewrite Hrest; cbn.
    repeat split; try congruence. constructor; assumption.
Qed.

Lemma updateTrades_spec (args : Args) (tradeUrls : list value) (st : State W) :
  exists st' tr lines,
    updateTrades args tradeUrls st = mkRun (Ok tt) st' tr /\
    timers st' = timers st /\ prefs st' = prefs st /\
    bump_segments args (js_length tradeUrls) 0 tradeUrls tr lines.
Proof. apply for_entries_spec. Qed.

End Proofs.

(** *** What a segment shows *)

Lemma attempted_app (tr1 tr2 : list event) :
  attempted (tr1 ++ tr2) = attempted tr1 ++ attempted tr2.
Proof. apply flat_map_app. Qed.

Lemma cycle_report_app (tr1 tr2 : list event) :
  cycle_report (tr1 ++ tr2) = cycle_report tr1 ++ cycle_report tr2.
Proof. apply flat_map_app. Qed.

Lemma stages_app (tr1 tr2 : list event) :
  stages (tr1 ++ tr2) = stages tr1 ++ stages tr2.
Proof. apply flat_map_app. Qed.

Lemma bump_segment_attempted args total index tradeUrl seg line :
  bump_segment args total index tradeUrl seg line ->
  attempted seg = [tradeUrl].
Proof.
  intros [t0 t1 | t0 t1 k c e Hk].
  - reflexivity.
  - script_position k Hk; reflexivity.
Qed.

Lemma bump_segment_report args total index tradeUrl seg line :
  bump_segment args total index tradeUrl seg line ->
  cycle_report seg = [line].
Proof.
  intros [t0 t1 | t0 t1 k c e Hk].
  - cbn. by_target args.
  - script_position k Hk; cbn; by_target args.
Qed.

Lemma bump_segment_stages args total index tradeUrl seg line :
  bump_segment args total index tradeUrl seg line ->
  stages seg = [Bumping].
Proof.
  intros [t0 t1 | t0 t1 k c e Hk].
  - cbn. by_target args.
  - script_position k Hk; cbn; by_target args.
Qed.

Lemma bump_segments_attempted args total index tradeUrls tr lines :
  bump_segments args total index tradeUrls tr lines ->
  attempted tr = tradeUrls.
Proof.
  induction 1 as [|index tradeUrl rest seg tr line lines Hseg _ IH].
  - reflexivity.
  - rewrite attempted_app, IH, (bump_segment_attempted Hseg). reflexivity.
Qed.

Lemma bump_segments_report args total index tradeUrls tr lines :
  bump_segments args total index tradeUrls tr lines ->
  cycle_report tr = lines.
Proof.
  induction 1 as [|index tradeUrl rest seg tr line lines Hseg _ IH].
  - reflexivity.
  - rewrite cycle_report_app, IH, (bump_segment_report Hseg). reflexivity.
Qed.

Lemma bump_segments_length args total index tradeUrls tr lines :
  bump_segments args total index tradeUrls tr lines ->
  length lines = length tradeUrls.
Proof. induction 1; cbn; congruence. Qed.

Lemma bump_segments_stages args total index tradeUrls tr lines :
  bump_segments args total index tradeUrls tr lines ->
  stages tr = repeat Bumping (length tradeUrls).
Proof.
  induction 1 as [|index tradeUrl rest seg tr line lines Hseg _ IH].
  - reflexivity.
  - rewrite stages_app, IH, (bump_segment_stages Hseg). reflexivity.
Qed.

(** C1.  Whatever the page driver does, [updateTrades] resolves; the URLs
    it navigates to are the input URLs, each once and in input order; and
    its trace is one segment per URL, in input order, each either the five
    calls resolved and a succeeded line, or the calls up to the one that
    threw and a failed line with the seconds elapsed: the report has one
    line per input URL, and a bump that fails is followed by the bumps of
    the URLs after it. *)
Theorem updateTrades_isolates_failures
  (W : Type) (D : Driver W) (args : Args) (tradeUrls : list value)
  (st : State W) :
  let r := updateTrades args tradeUrls st in
  res r = Ok tt /\
  attempted (emitted r) = tradeUrls /\
  length (cycle_report (emitted r)) = length tradeUrls /\
  bump_segments args (js_length tradeUrls) 0 tradeUrls
    (emitted r) (cycle_report (emitted r)).
Proof.
  destruct (updateTrades_spec args tradeUrls st)
    as (st' & tr & lines & Hrun & _ & _ & Hsegs).
  cbv zeta. rewrite Hrun; cbn [res emitted].
  rewrite (bump_segments_report Hsegs).
  repeat split.
  - exact (bump_segments_attempted Hsegs).
  - exact (bump_segments_length Hsegs).
  - exact Hsegs.
Qed.

Lemma diff_seconds_bounds (t0 t1 : Z) :
  t0 <= t1 ->
  1000 * diff_seconds t1 t0 <= t1 - t0 < 1000 * diff_seconds t1 t0 + 1000.
Proof.
  intros Hle. unfold diff_seconds.
  pose proof (Z.quot_rem' (t1 - t0) 1000) as Hqr.
  pose proof (Z.rem_bound_pos (t1 - t0) 1000) as Hb.
  lia.
Qed.

(** C8, as the code has it.  One bump reads the clock twice: [t0] before
    its spinner starts and before the first call, [t1] right after the
    last call it makes (the fifth when all resolve, the one that threw
    otherwise).  The seconds it prints, on success and on failure alike,
    are the difference [t1 - t0] in milliseconds divided by 1000 and
    truncated towards zero: for [t0 <= t1], the whole seconds that have
    fully elapsed. *)
Theorem elapsed_seconds_are_truncated
  (W : Type) (D : Driver W) (args : Args) (total index : Z)
  (tradeUrl : value) (st : State W) :
  exists (t0 t1 : Z) (calls : list event) (verdict : event),
    emitted (bump_trade args total index tradeUrl st) =
      EClock t0 :: ESpinner SpStart (bumping_message args (index + 1) total)
        :: calls ++ [EClock t1; verdict] /\
    ((calls = map resolved (bump_script tradeUrl) /\
      verdict = ESpinner SpSucceed
                  (bumped_message args (index + 1) total
                     (Z.quot (t1 - t0) 1000)))
     \/
     (exists (k : nat) (c : call) (e : error),
        nth_error (bump_script tradeUrl) k = Some c /\
        calls = map resolved (firstn k (bump_script tradeUrl))
                  ++ [EPage c (Some e)] /\
        verdict = ESpinner SpFail
                    (failed_message args (index + 1) total
                       (Z.quot (t1 - t0) 1000)))) /\
    (t0 <= t1 ->
     1000 * Z.quot (t1 - t0) 1000 <= t1 - t0
       < 1000 * Z.quot (t1 - t0) 1000 + 1000).
Proof.
  destruct (bump_trade_spec args total index tradeUrl st)
    as (st' & seg & line & Hrun & _ & _ & Hseg).
  rewrite Hrun; cbn [emitted].
  destruct Hseg as [t0 t1 | t0 t1 k c e Hk].
  - exists t0, t1, (map resolved (bump_script tradeUrl)). eexists.
    split; [reflexivity|]. split; [left; split; reflexivity|].
    apply diff_seconds_bounds.
  - exists t0, t1,
      (map resolved (firstn k (bump_script tradeUrl)) ++ [EPage c (Some e)]).
    eexists.
    split; [cbn [app]; rewrite <- app_assoc; reflexivity|].
    split; [right; exists k, c, e; repeat split; assumption|].
    apply diff_seconds_bounds.
Qed.

(* ===================================================================== *)
(** ** login *)
(* ===================================================================== *)

Section Login.
Context {W : Type} `{Driver W}.

(** [login] makes the seven calls of its script in order and stops at the
    first that throws, rejecting with what was thrown; when all seven
    resolve it reports success and resolves.  It makes no other call. *)
Lemma login_spec (st : State W) :
  let p := prefs st in
  let started := ESpinner SpStart (MsgLoggingIn (emailAddress p)) in
  (exists st',
     login st =
       mkRun (Ok tt) st'
         (started :: map resolved (login_script p)
            ++ [ESpinner SpSucceed (MsgLoggedIn (emailAddress p))]) /\
     timers st' = timers st /\ prefs st' = prefs st)
  \/
  (exists st' (k : nat) (c : call) (e : error),
     nth_error (login_script p) k = Some c /\
     login st =
       mkRun (Err e) st'
         (started :: map resolved (firstn k (login_script p))
            ++ [EPage c (Some e)]) /\
     timers st' = timers st /\ prefs st' = prefs st).
Proof.
  cbv zeta. unfold login. unfold_js. cbn.
  next_call; [right; eexists _, 0%nat, _, _; repeat split|].
  next_call; [right; eexists _, 1%nat, _, _; repeat split|].
  next_call; [right; eexists _, 2%nat, _, _; repeat split|].
  next_call; [right; eexists _, 3%nat, _, _; repeat split|].
  next_call; [right; eexists _, 4%nat, _, _; repeat split|].
  next_call; [right; eexists _, 5%nat, _, _; repeat split|].
  next_call; [right; eexists _, 6%nat, _, _; repeat split|].
  left. eexists. repeat split.
Qed.

(** A rejection of [login] ends the action of the bump command: nothing
    after it runs, and the rejection is left unhandled. *)
Lemma bump_action_login_rejected (args : Args) (st : State W) (e : error) :
  res (boot args st) = Ok tt ->
  res (login (final (boot args st))) = Err e ->
  unhandled (bump_action args st) =
    (final (login (final (boot args st))),
     emitted (boot args st) ++ emitted (login (final (boot args st)))
       ++ [EUnhandledRejection e]).
Proof.
  intros Hboot Hlogin. unfold bump_action.
  rewrite (bind_resolved _ _ _ Hboot).
  rewrite (bind_rejected _ _ _ Hlogin).
  unfold unhandled; cbn. rewrite <- app_assoc. reflexivity.
Qed.

Lemma event_loop_no_timer (fuel : nat) (st : State W) :
  timers st = [] -> event_loop fuel st = (st, []).
Proof. intros Hnone. destruct fuel; cbn; [|rewrite Hnone]; reflexivity. Qed.

Lemma boot_timers (args : Args) (st : State W) :
  timers (final (boot args st)) = timers st.
Proof.
  unfold boot. unfold_js. cbn.
  next_call; [reflexivity|]. next_call; reflexivity.
Qed.

End Login.

(** C7.  [login] makes the seven calls of its script, each at most once and
    in order.  If one throws, no further call is made and [login] rejects
    with the very error thrown (nothing is caught, nothing is retried);
    if all seven resolve, [login] resolves right after the navigation
    wait, whatever page the browser has reached (no call inspects it).
    When [login] rejects inside the bump command, the rejection is left
    unhandled, no timer is registered and the trace ends with the failed
    login: no discovery, no bump and no scheduling ever follow, for any
    number of timer firings waited for. *)
Theorem login_errors_propagate
  (W : Type) (D : Driver W) (args : Args) (st : State W) :
  let p := prefs st in
  let started := ESpinner SpStart (MsgLoggingIn (emailAddress p)) in
  ((res (login st) = Ok tt /\
    emitted (login st) =
      started :: map resolved (login_script p)
        ++ [ESpinner SpSucceed (MsgLoggedIn (emailAddress p))])
   \/
   (exists (k : nat) (c : call) (e : error),
      nth_error (login_script p) k = Some c /\
      res (login st) = Err e /\
      emitted (login st) =
        started :: map resolved (firstn k (login_script p))
          ++ [EPage c (Some e)]))
  /\
  (forall (e : error) (fuel : nat),
     timers st = [] ->
     res (boot args st) = Ok tt ->
     res (login (final (boot args st))) = Err e ->
     exists st',
       run_bump fuel args st =
         (st', emitted (boot args st)
                 ++ emitted (login (final (boot args st)))
                 ++ [EUnhandledRejection e]) /\
       timers st' = []).
Proof.
  cbv zeta. split.
  - destruct (login_spec st) as [(st' & Hrun & _) | (st' & k & c & e & Hk & Hrun & _)];
      cbv zeta in Hrun; rewrite Hrun; cbn [res emitted].
    + left. split; reflexivity.
    + right. exists k, c, e. repeat split. exact Hk.
  - intros e fuel Hnone Hboot Hlogin.
    exists (final (login (final (boot args st)))).
    assert (Ht : timers (final (login (final (boot args st)))) = []).
    { destruct (login_spec (final (boot args st)))
        as [(st' & Hrun & Ht & _) | (st' & k & c & e' & _ & Hrun & Ht & _)];
        cbv zeta in Hrun; rewrite Hrun; cbn [final];
        rewrite Ht, boot_timers; exact Hnone. }
    split; [|exact Ht].
    unfold run_bump.
    rewrite (bump_action_login_rejected _ _ Hboot Hlogin).
    rewrite (event_loop_no_timer _ _ Ht).
    rewrite app_nil_r. reflexivity.
Qed.

(* ===================================================================== *)
(** ** scrapeTrades *)
(* ===================================================================== *)

Lemma nth_length_pred_last (A : Type) (l : list A) (d : A) :
  nth (length l - 1) l d = last l d.
Proof.
  induction l as [|a [|b l] IH]; try reflexivity.
  cbn [length last] in *. rewrite <- IH.
  replace (S (S (length l)) - 1)%nat with (S (length l)) by lia.
  replace (S (length l) - 1)%nat with (length l) by lia.
  reflexivity.
Qed.

Lemma js_index_last (l : list value) :
  l <> [] -> js_index l (js_length l - 1) = last l VUndefined.
Proof.
  intros Hne. unfold js_index, js_length.
  destruct l as [|a l]; [congruence|].
  destruct (Z.ltb_spec (Z.of_nat (length (a :: l)) - 1) 0) as [Hneg|_].
  - cbn [length] in Hneg. lia.
  - replace (Z.to_nat (Z.of_nat (length (a :: l)) - 1))
      with (length (a :: l) - 1)%nat by lia.
    apply nth_length_pred_last.
Qed.

Lemma last_map_VStr (hrefs : list string) :
  hrefs <> [] -> last (map VStr hrefs) VUndefined = VStr (last hrefs "").
Proof.
  induction hrefs as [|a [|b l] IH]; intros Hne; try congruence; try reflexivity.
  change (last (map VStr (b :: l)) VUndefined = VStr (last (b :: l) "")).
  apply IH. discriminate.
Qed.

Lemma select_target_oldest (args : Args) (hrefs : list string) :
  target args = VStr "oldest" -> hrefs <> [] ->
  select_target args (map VStr hrefs) = [VStr (last hrefs "")].
Proof.
  intros Ht Hne. unfold select_target. rewrite Ht; cbn [strict_eq_str String.eqb].
  replace (String.eqb "oldest" "oldest") with true by reflexivity.
  rewrite js_index_last, last_map_VStr; try assumption; try reflexivity.
  destruct hrefs; [congruence | discriminate].
Qed.

Lemma select_target_oldest_nothing (args : Args) :
  target args = VStr "oldest" -> select_target args [] = [VUndefined].
Proof. intros Ht. unfold select_target. rewrite Ht. reflexivity. Qed.

Lemma select_target_all (args : Args) (tradeUrls : list value) :
  target args = VStr "all" -> select_target args tradeUrls = tradeUrls.
Proof. intros Ht. unfold select_target. rewrite Ht. reflexivity. Qed.

Section Discovery.
Context {W : Type} `{Driver W}.

(** What [scrapeTrades] does when its navigation and its evaluation
    resolve. *)
Lemma scrapeTrades_resolved (args : Args) (st : State W) (w1 w2 : W)
  (hrefs : list string) :
  perform (Goto (trades_url (username (prefs st)))) (world st) = (w1, None) ->
  evaluate_hrefs w1 = (w2, inr hrefs) ->
  scrapeTrades args st =
    mkRun (Ok (select_target args (map VStr hrefs)))
          (mkState w2 (prefs st) (timers st))
          [ ESpinner SpStart MsgFinding;
            resolved (Goto (trades_url (username (prefs st))));
            EEvaluate (inr hrefs);
            ESpinner SpSucceed
              (MsgFound (js_length (map VStr hrefs))
                        (negb (js_length (map VStr hrefs) =? 1))) ].
Proof.
  intros Hgoto Heval. unfold scrapeTrades. unfold_js. cbn -[trades_url].
  rewrite Hgoto; cbn -[trades_url]. rewrite Heval; cbn -[trades_url].
  reflexivity.
Qed.

(** Either way [scrapeTrades] ends: resolved as above, or rejected by its
    navigation or its evaluation, before anything is selected. *)
Lemma scrapeTrades_cases (args : Args) (st : State W) :
  (exists w1 w2 hrefs,
     perform (Goto (trades_url (username (prefs st)))) (world st) = (w1, None) /\
     evaluate_hrefs w1 = (w2, inr hrefs))
  \/
  (exists e st' tr,
     scrapeTrades args st = mkRun (Err e) st' tr /\
     timers st' = timers st /\ prefs st' = prefs st).
Proof.
  destruct (perform (Goto (trades_url (username (prefs st)))) (world st))
    as [w1 [e|]] eqn:Hgoto.
  - right. unfold scrapeTrades. unfold_js. cbn -[trades_url].
    rewrite Hgoto; cbn. eexists _, _, _. repeat split.
  - destruct (evaluate_hrefs w1) as [w2 [e|hrefs]] eqn:Heval.
    + right. unfold scrapeTrades. unfold_js. cbn -[trades_url].
      rewrite Hgoto; cbn. rewrite Heval; cbn. eexists _, _, _. repeat split.
    + left. eauto.
Qed.

Lemma scrapeTrades_resolved_inv (args : Args) (st : State W)
  (tradeUrls : list value) :
  res (scrapeTrades args st) = Ok tradeUrls ->
  timers (final (scrapeTrades args st)) = timers st /\
  prefs (final (scrapeTrades args st)) = prefs st /\
  stages (emitted (scrapeTrades args st)) = [Discovery].
Proof.
  intros Hres.
  destruct (scrapeTrades_cases args st)
    as [(w1 & w2 & hrefs & Hgoto & Heval) | (e & st' & tr & Hrun & _)].
  - rewrite (scrapeTrades_resolved args st Hgoto Heval). repeat split.
  - rewrite Hrun in Hres. discriminate Hres.
Qed.

End Discovery.

(** C3.  With the target 'oldest', when the trade page loads and shows the
    anchors [hrefs] in document order, not none, [scrapeTrades] resolves
    with the one-element array holding the last of them. *)
Theorem scrapeTrades_oldest_returns_last
  (W : Type) (D : Driver W) (args : Args) (st : State W) (w1 w2 : W)
  (hrefs : list string) :
  target args = VStr "oldest" ->
  perform (Goto (trades_url (username (prefs st)))) (world st) = (w1, None) ->
  evaluate_hrefs w1 = (w2, inr hrefs) ->
  hrefs <> [] ->
  res (scrapeTrades args st) = Ok [VStr (last hrefs "")].
Proof.
  intros Ht Hgoto Heval Hne.
  rewrite (scrapeTrades_resolved args st Hgoto Heval); cbn [res].
  rewrite (select_target_oldest args Ht Hne). reflexivity.
Qed.

(** C4.  With the target 'all', when the trade page loads and shows the
    anchors [hrefs] in document order, [scrapeTrades] resolves with exactly
    these URLs: the same elements in the same order, hence as many. *)
Theorem scrapeTrades_all_returns_unchanged
  (W : Type) (D : Driver W) (args : Args) (st : State W) (w1 w2 : W)
  (hrefs : list string) :
  target args = VStr "all" ->
  perform (Goto (trades_url (username (prefs st)))) (world st) = (w1, None) ->
  evaluate_hrefs w1 = (w2, inr hrefs) ->
  exists tradeUrls,
    res (scrapeTrades args st) = Ok tradeUrls /\
    tradeUrls = map VStr hrefs /\
    length tradeUrls = length hrefs /\
    forall i href, nth_error hrefs i = Some href ->
                   nth_error tradeUrls i = Some (VStr href).
Proof.
  intros Ht Hgoto Heval. exists (map VStr hrefs).
  rewrite (scrapeTrades_resolved args st Hgoto Heval); cbn [res].
  rewrite (select_target_all args _ Ht).
  repeat split.
  - apply length_map.
  - intros i href Hi. rewrite nth_error_map, Hi. reflexivity.
Qed.

(** The parts of C2 that hold: nothing scraped and the target 'all' gives
    no URL, and [updateTrades] on no URL does nothing at all. *)
Lemma scrapeTrades_all_nothing
  (W : Type) (D : Driver W) (args : Args) (st : State W) (w1 w2 : W) :
  target args = VStr "all" ->
  perform (Goto (trades_url (username (prefs st)))) (world st) = (w1, None) ->
  evaluate_hrefs w1 = (w2, inr []) ->
  res (scrapeTrades args st) = Ok [].
Proof.
  intros Ht Hgoto Heval.
  rewrite (scrapeTrades_resolved args st Hgoto Heval); cbn [res].
  rewrite (select_target_all args _ Ht). reflexivity.
Qed.

Lemma updateTrades_nothing
  (W : Type) (D : Driver W) (args : Args) (st : State W) :
  updateTrades args [] st = mkRun (Ok tt) st [].
Proof. reflexivity. Qed.

(** The part of C2 that fails: nothing scraped and the target 'oldest'
    gives the one-element array [[undefined]]. *)
Lemma scrapeTrades_oldest_nothing
  (W : Type) (D : Driver W) (args : Args) (st : State W) (w1 w2 : W) :
  target args = VStr "oldest" ->
  perform (Goto (trades_url (username (prefs st)))) (world st) = (w1, None) ->
  evaluate_hrefs w1 = (w2, inr []) ->
  res (scrapeTrades args st) = Ok [VUndefined].
Proof.
  intros Ht Hgoto Heval.
  rewrite (scrapeTrades_resolved args st Hgoto Heval); cbn [res map].
  rewrite (select_target_oldest_nothing args Ht). reflexivity.
Qed.

(* ===================================================================== *)
(** ** scheduleUpdateTrades and the event loop *)
(* ===================================================================== *)

Section Scheduler.
Context {W : Type} `{Driver W}.

(** [scheduleUpdateTrades] reads the clock, prints the next run time and
    registers one timer; it makes no page call and always returns. *)
Lemma scheduleUpdateTrades_spec (args : Args) (st : State W) :
  exists w t,
    read_clock (world st) = (w, t) /\
    scheduleUpdateTrades args st =
      mkRun (Ok tt)
            (mkState w (prefs st)
                     (timers st ++ [mkTimer (requested_delay args) args]))
            [ EClock t; ESpinner SpInfo (MsgRunAgain t (interval args));
              ESetTimeout (requested_delay args) ].
Proof.
  unfold scheduleUpdateTrades. unfold_js.
  destruct (read_clock (world st)) as [w t]. exists w, t.
  split; reflexivity.
Qed.

(** One run of the timer's callback when discovery resolves. *)
Lemma timer_callback_spec (args : Args) (st : State W) (tradeUrls : list value) :
  res (scrapeTrades args st) = Ok tradeUrls ->
  exists st' tr,
    timer_callback args st = mkRun (Ok tt) st' tr /\
    timers st' = timers st ++ [mkTimer (requested_delay args) args] /\
    prefs st' = prefs st /\
    stages tr =
      Discovery :: repeat Bumping (length tradeUrls)
        ++ [Scheduled (requested_delay args)].
Proof.
  intros Hscrape.
  destruct (scrapeTrades_resolved_inv args st Hscrape) as (Ht1 & Hp1 & Hs1).
  destruct (updateTrades_spec args tradeUrls (final (scrapeTrades args st)))
    as (st2 & tr2 & lines & Hrun2 & Ht2 & Hp2 & Hsegs).
  destruct (scheduleUpdateTrades_spec args st2) as (w & t & _ & Hrun3).
  unfold timer_callback.
  rewrite (bind_resolved _ _ _ Hscrape).
  rewrite (bind_resolved _ _ _ (a := tt)) by (rewrite Hrun2; reflexivity).
  rewrite Hrun2; cbn [res final emitted]. rewrite Hrun3; cbn [res final emitted].
  eexists _, _. split; [reflexivity|]. cbn [timers prefs].
  repeat split; try congruence.
  rewrite !stages_app, Hs1, (bump_segments_stages Hsegs). reflexivity.
Qed.

(** One run of the timer's callback when discovery rejects: nothing is
    bumped and no timer is registered. *)
Lemma timer_callback_rejected (args : Args) (st : State W) (e : error) :
  res (scrapeTrades args st) = Err e ->
  timer_callback args st =
    mkRun (Err e) (final (scrapeTrades args st)) (emitted (scrapeTrades args st)).
Proof. intros Hscrape. unfold timer_callback. apply bind_rejected, Hscrape. Qed.

(** While discovery resolves, [n] firings are [n] full cycles and the
    timer is pending again after each. *)
Lemma event_loop_cycles (args : Args) (d : option Z) :
  requested_delay args = d ->
  (forall st, exists tradeUrls, res (scrapeTrades args st) = Ok tradeUrls) ->
  forall (n : nat) (st : State W),
    timers st = [mkTimer d args] ->
    timers (fst (event_loop n st)) = [mkTimer d args] /\
    prefs (fst (event_loop n st)) = prefs st /\
    cycle_stages d n (stages (snd (event_loop n st))).
Proof.
  intros Hd Hdiscovery n. induction n as [|n IH]; intros st Hpending.
  - cbn. repeat split; [assumption | constructor].
  - cbn [event_loop]. rewrite Hpending. cbn [timer_args delay].
    destruct (Hdiscovery (set_timers st [])) as [tradeUrls Hscrape].
    destruct (timer_callback_spec args _ Hscrape)
      as (st1 & tr1 & Hrun & Ht & Hp & Hstages).
    rewrite Hrun. unfold unhandled; cbn [res final emitted].
    cbn [set_timers timers prefs app] in Ht, Hp. rewrite Hd in Ht, Hstages.
    destruct (IH st1 Ht) as (IHt & IHp & IHc).
    destruct (event_loop n st1) as [st2 tr2]. cbn [fst snd] in *.
    repeat split; [assumption | congruence |].
    rewrite app_nil_r.
    change (stages (ETimerFired d :: tr1 ++ tr2))
      with (Fired d :: stages (tr1 ++ tr2)).
    rewrite stages_app, Hstages. cbn [app]. rewrite <- app_assoc. cbn [app].
    constructor. exact IHc.
Qed.

(** A rejected discovery ends the loop: the callback's rejection is left
    unhandled and no timer is pending after it. *)
Lemma event_loop_discovery_rejected (n : nat) (st : State W) (t : Timer)
  (e : error) :
  timers st = [t] ->
  res (scrapeTrades (timer_args t) (set_timers st [])) = Err e ->
  timers (fst (event_loop (S n) st)) = [] /\
  snd (event_loop (S n) st) =
    ETimerFired (delay t)
      :: emitted (scrapeTrades (timer_args t) (set_timers st []))
      ++ [EUnhandledRejection e].
Proof.
  intros Hpending Hscrape. cbn [event_loop]. rewrite Hpending.
  rewrite (timer_callback_rejected _ _ Hscrape).
  unfold unhandled; cbn [res final emitted].
  assert (Hnone : timers (final (scrapeTrades (timer_args t) (set_timers st []))) = []).
  { destruct (scrapeTrades_cases (timer_args t) (set_timers st []))
      as [(w1 & w2 & hrefs & Hgoto & Heval) | (e' & st' & tr & Hrun & Ht & _)].
    - rewrite (scrapeTrades_resolved _ _ Hgoto Heval) in Hscrape.
      discriminate Hscrape.
    - rewrite Hrun; cbn [final]. rewrite Ht. reflexivity. }
  rewrite (event_loop_no_timer n _ Hnone). cbn [fst snd].
  rewrite app_nil_r. split; [exact Hnone | reflexivity].
Qed.

Lemma boot_stages (args : Args) (st : State W) :
  stages (emitted (boot args st)) = [].
Proof.
  unfold boot. unfold_js. cbn.
  next_call; [reflexivity|]. next_call; reflexivity.
Qed.

Lemma boot_prefs (args : Args) (st : State W) :
  prefs (final (boot args st)) = prefs st.
Proof.
  unfold boot. unfold_js. cbn.
  next_call; [reflexivity|]. next_call; reflexivity.
Qed.

Lemma login_resolved_inv (st : State W) :
  res (login st) = Ok tt ->
  timers (final (login st)) = timers st /\
  prefs (final (login st)) = prefs st /\
  stages (emitted (login st)) = repeat Authenticating 7.
Proof.
  intros Hres.
  destruct (login_spec st)
    as [(st' & Hrun & Ht & Hp) | (st' & k & c & e & _ & Hrun & _)];
    cbv zeta in Hrun; rewrite Hrun in *.
  - repeat split; assumption.
  - discriminate Hres.
Qed.

(** The bump command from its start, when boot and login resolve and
    discovery always does. *)
Lemma run_bump_cycles (args : Args) (d : option Z) :
  requested_delay args = d ->
  (forall st, exists tradeUrls, res (scrapeTrades args st) = Ok tradeUrls) ->
  forall (n : nat) (st : State W),
    timers st = [] ->
    res (boot args st) = Ok tt ->
    res (login (final (boot args st))) = Ok tt ->
    timers (fst (run_bump n args st)) = [mkTimer d args] /\
    prefs (fst (run_bump n args st)) = prefs st /\
    exists (bumps : nat) (rest : list stage),
      stages (snd (run_bump n args st)) =
        repeat Authenticating 7
          ++ Discovery :: repeat Bumping bumps ++ Scheduled d :: rest /\
      cycle_stages d n rest.
Proof.
  intros Hd Hdiscovery n st Hnone Hboot Hlogin.
  destruct (login_resolved_inv _ Hlogin) as (Ht1 & Hp1 & Hs1).
  destruct (Hdiscovery (final (login (final (boot args st)))))
    as [tradeUrls Hscrape].
  destruct (timer_callback_spec args _ Hscrape)
    as (st1 & tr1 & Hrun & Ht & Hp & Hstages).
  unfold run_bump, bump_action.
  rewrite (bind_resolved _ _ _ Hboot).
  rewrite (bind_resolved _ _ _ Hlogin).
  change (tradeUrls0 <- scrapeTrades args;;
          updateTrades args tradeUrls0;; scheduleUpdateTrades args)
    with (timer_callback args).
  rewrite Hrun. unfold unhandled; cbn [res final emitted].
  rewrite Ht1, boot_timers, Hnone in Ht. cbn [app] in Ht. rewrite Hd in Ht, Hstages.
  destruct (event_loop_cycles Hd Hdiscovery n st1 Ht) as (IHt & IHp & IHc).
  destruct (event_loop n st1) as [st2 tr2]. cbn [fst snd] in *.
  split; [assumption|]. split; [rewrite IHp, Hp, Hp1; apply boot_prefs|].
  exists (length tradeUrls), (stages tr2). split; [|exact IHc].
  rewrite app_nil_r, !stages_app, boot_stages, Hs1, Hstages.
  cbn [app]. rewrite <- !app_assoc. cbn [app]. rewrite <- ?app_assoc. reflexivity.
Qed.

End Scheduler.

(* ===================================================================== *)
(** ** The stored credentials *)
(* ===================================================================== *)

Section Frame.
Context {W : Type} `{Driver W}.

Lemma keeps_prefs_ret (A : Type) (a : A) : keeps_prefs (@ret W A a).
Proof. intros st. reflexivity. Qed.

Lemma keeps_prefs_bind (A B : Type) (m : M W A) (f : A -> M W B) :
  keeps_prefs m -> (forall a, keeps_prefs (f a)) -> keeps_prefs (bind m f).
Proof.
  intros Hm Hf st. unfold bind. specialize (Hm st).
  destruct (m st) as [[a|e] st1 tr1]; cbn in *; [|assumption].
  specialize (Hf a st1). destruct (f a st1); cbn in *. congruence.
Qed.

Lemma keeps_prefs_try_catch (A : Type) (m : M W A) (h : error -> M W A) :
  keeps_prefs m -> (forall e, keeps_prefs (h e)) -> keeps_prefs (try_catch m h).
Proof.
  intros Hm Hh st. unfold try_catch. specialize (Hm st).
  destruct (m st) as [[a|e] st1 tr1]; cbn in *; [assumption|].
  specialize (Hh e st1). destruct (h e st1); cbn in *. congruence.
Qed.

Lemma keeps_prefs_emit (e : event) : keeps_prefs (@emit W e).
Proof. intros st. reflexivity. Qed.

Lemma keeps_prefs_spinner (a : spinner_action) (m : message) :
  keeps_prefs (@spinner W a m).
Proof. intros st. reflexivity. Qed.

Lemma keeps_prefs_console_log (m : message) : keeps_prefs (@console_log W m).
Proof. intros st. reflexivity. Qed.

Lemma keeps_prefs_page (c : call) : keeps_prefs (page c).
Proof. intros st. unfold page. destruct (perform c (world st)). reflexivity. Qed.

Lemma keeps_prefs_page_evaluate : keeps_prefs page_evaluate.
Proof.
  intros st. unfold page_evaluate. destruct (evaluate_hrefs (world st)).
  reflexivity.
Qed.

Lemma keeps_prefs_moment : keeps_prefs moment.
Proof. intros st. unfold moment. destruct (read_clock (world st)). reflexivity. Qed.

Lemma keeps_prefs_pref (field : Prefs -> value) : keeps_prefs (@pref W field).
Proof. intros st. reflexivity. Qed.

Lemma keeps_prefs_setTimeout (args : Args) (d : option Z) :
  keeps_prefs (@setTimeout W args d).
Proof. intros st. reflexivity. Qed.

Lemma keeps_prefs_for_entries (body : Z -> value -> M W unit)
  (entries : list value) :
  (forall index tradeUrl, keeps_prefs (body index tradeUrl)) ->
  forall index, keeps_prefs (for_entries body index entries).
Proof.
  intros Hbody. induction entries as [|tradeUrl rest IH]; intros index; cbn.
  - apply keeps_prefs_ret.
  - apply keeps_prefs_bind; [apply Hbody | intros _; apply IH].
Qed.

End Frame.

Create HintDb frame.
#[local] Hint Resolve keeps_prefs_ret keeps_prefs_emit keeps_prefs_spinner
  keeps_prefs_console_log keeps_prefs_page keeps_prefs_page_evaluate
  keeps_prefs_moment keeps_prefs_pref keeps_prefs_setTimeout : frame.

(** Goes through a computation statement by statement. *)
Ltac frame :=
  repeat first
    [ apply keeps_prefs_bind; [|intro]
    | apply keeps_prefs_try_catch; [|intro]
    | apply keeps_prefs_for_entries; intros ];
  auto with frame.

Section FrameOfTheScript.
Context {W : Type} `{Driver W}.

Lemma keeps_prefs_boot (args : Args) : keeps_prefs (boot args).
Proof. unfold boot. frame. Qed.

Lemma keeps_prefs_login : keeps_prefs login.
Proof. unfold login. frame. Qed.

Lemma keeps_prefs_scrapeTrades (args : Args) : keeps_prefs (scrapeTrades args).
Proof. unfold scrapeTrades. frame. Qed.

Lemma keeps_prefs_updateTrades (args : Args) (tradeUrls : list value) :
  keeps_prefs (updateTrades args tradeUrls).
Proof. unfold updateTrades. frame. Qed.

Lemma keeps_prefs_scheduleUpdateTrades (args : Args) :
  keeps_prefs (scheduleUpdateTrades args).
Proof. unfold scheduleUpdateTrades. frame. Qed.

Lemma keeps_prefs_timer_callback (args : Args) :
  keeps_prefs (timer_callback args).
Proof.
  unfold timer_callback.
  apply keeps_prefs_bind; [apply keeps_prefs_scrapeTrades | intros tradeUrls].
  apply keeps_prefs_bind; [apply keeps_prefs_updateTrades | intros _].
  apply keeps_prefs_scheduleUpdateTrades.
Qed.

Lemma keeps_prefs_bump_action (args : Args) : keeps_prefs (bump_action args).
Proof.
  unfold bump_action.
  apply keeps_prefs_bind; [apply keeps_prefs_boot | intros _].
  apply keeps_prefs_bind; [apply keeps_prefs_login | intros _].
  apply keeps_prefs_timer_callback.
Qed.

Lemma event_loop_prefs (n : nat) :
  forall st : State W, prefs (fst (event_loop n st)) = prefs st.
Proof.
  induction n as [|n IH]; intros st; cbn [event_loop]; [reflexivity|].
  destruct (timers st) as [|t pending]; [reflexivity|].
  pose proof (keeps_prefs_timer_callback (timer_args t) (set_timers st pending))
    as Hcb.
  unfold unhandled.
  specialize (IH (final (timer_callback (timer_args t) (set_timers st pending)))).
  destruct (event_loop n _) as [st2 tr2]. cbn [fst] in *.
  rewrite IH, Hcb. reflexivity.
Qed.

Lemma run_bump_prefs (n : nat) (args : Args) (st : State W) :
  prefs (fst (run_bump n args st)) = prefs st.
Proof.
  unfold run_bump, unhandled.
  pose proof (event_loop_prefs n (final (bump_action args st))) as Hloop.
  destruct (event_loop n _) as [st2 tr2]. cbn [fst] in *.
  rewrite Hloop. apply keeps_prefs_bump_action.
Qed.

End FrameOfTheScript.

(** C10.  [login], [scrapeTrades], [updateTrades] and
    [scheduleUpdateTrades] each leave the stored credential record as it
    was, whether they resolve or reject; so does the timer's callback, so
    does the event loop after any number of firings, and so does the bump
    command as a whole: the record at the end is the record at the start,
    field for field. *)
Theorem bump_pipeline_keeps_credentials
  (W : Type) (D : Driver W) (args : Args) :
  keeps_prefs login /\
  keeps_prefs (scrapeTrades args) /\
  (forall tradeUrls, keeps_prefs (updateTrades args tradeUrls)) /\
  keeps_prefs (scheduleUpdateTrades args) /\
  (forall (n : nat) (st : State W),
     prefs (fst (event_loop n st)) = prefs st) /\
  (forall (n : nat) (st : State W),
     let p := prefs (fst (run_bump n args st)) in
     username p = username (prefs st) /\
     emailAddress p = emailAddress (prefs st) /\
     password p = password (prefs st)).
Proof.
  split; [apply keeps_prefs_login|].
  split; [apply keeps_prefs_scrapeTrades|].
  split; [intros tradeUrls; apply keeps_prefs_updateTrades|].
  split; [apply keeps_prefs_scheduleUpdateTrades|].
  split; [intros n st; apply event_loop_prefs|].
  intros n st p. subst p. rewrite run_bump_prefs. repeat split.
Qed.

(* ===================================================================== *)
(** ** setLogin *)
(* ===================================================================== *)

(** C9.  When the prompt hands an error to the callback, [setLogin] prints
    the abort message after its two opening lines and leaves the stored
    credential record exactly as it was.  When it hands none, the three
    fields are set to the three answers.  So a run of [setLogin] that
    changes the record is one whose prompt succeeded. *)
Theorem setLogin_aborted_changes_nothing
  (W : Type) (st : State W) (credentials : Credentials) :
  (forall e : error,
     let r := setLogin (Some e) credentials st in
     res r = Ok tt /\
     final r = st /\
     emitted r = [ EConsole MsgBlank; ESpinner SpInfo MsgEnterCredentials;
                   EConsole MsgLoginAborted ])
  /\
  (let r := setLogin None credentials st in
   res r = Ok tt /\
   prefs (final r) =
     mkPrefs (VStr (c_username credentials))
             (VStr (c_emailAddress credentials))
             (VStr (c_password credentials)) /\
   world (final r) = world st /\ timers (final r) = timers st)
  /\
  (forall error_ : option error,
     prefs (final (setLogin error_ credentials st)) <> prefs st ->
     error_ = None).
Proof.
  split; [|split].
  - intros e. cbv zeta. destruct st as [w p ts]. repeat split.
  - cbv zeta. destruct st as [w p ts]. repeat split.
  - intros [e|] Hchanged; [|reflexivity].
    exfalso. apply Hchanged. reflexivity.
Qed.

(* ===================================================================== *)
(** ** The interval argument *)
(* ===================================================================== *)

Lemma digit_value_bounds (c : ascii) :
  is_digit c = true ->
  0 <= digit_value c <= 9 /\
  (0 < digit_value c <-> negb (Ascii.eqb c "0") = true).
Proof.
  unfold is_digit, digit_value. intros Hd.
  apply andb_true_iff in Hd as [Hlo Hhi].
  apply Nat.leb_le in Hlo, Hhi.
  split; [lia|].
  destruct (Ascii.eqb_spec c "0") as [->|Hne]; cbn.
  - split; [lia | discriminate].
  - split; [reflexivity | intros _].
    assert (nat_of_ascii c <> 48)%nat; [|lia].
    intros Heq. apply Hne.
    rewrite <- (ascii_nat_embedding c), Heq. reflexivity.
Qed.

Lemma decimal_acc_sign (s : string) :
  forall acc : Z,
    0 <= acc -> all_digits s = true ->
    0 <= decimal_acc acc s /\
    (0 < decimal_acc acc s <-> 0 < acc \/ has_nonzero_digit s = true).
Proof.
  induction s as [|c rest IH]; intros acc Hacc Hdigits; cbn in *.
  - split; [assumption|]. split; [auto | intros [?|?]; [assumption|discriminate]].
  - apply andb_true_iff in Hdigits as [Hc Hrest].
    destruct (digit_value_bounds c Hc) as (Hb & Hpos).
    destruct (IH (10 * acc + digit_value c) ltac:(lia) Hrest) as (Hge & Hiff).
    split; [assumption|].
    rewrite Hiff, orb_true_iff, <- Hpos. intuition lia.
Qed.

(** C6, as the code has it.  An interval text that is not empty and that
    the validation accepts is made of decimal digits only: it is the
    decimal numeral of a whole number of minutes that is zero or more, and
    that is positive exactly when the text has a digit other than 0 (so
    not for "0").  Up to the safe integers this whole number is the number
    the program computes with. *)
Theorem accepted_interval_is_digits (s : string) (v : value) :
  s <> "" ->
  validate interval_argument s = Ok v ->
  v = VStr s /\
  all_digits s = true /\
  0 <= decimal_acc 0 s /\
  (0 < decimal_acc 0 s <-> has_nonzero_digit s = true) /\
  (decimal_acc 0 s <= max_safe_integer ->
   to_number v = Some (decimal_acc 0 s)).
Proof.
  intros _. unfold validate, interval_argument; cbn [arg_validator].
  destruct (all_digits s) eqn:Hdigits; [|discriminate].
  intros [= <-]. split; [reflexivity|]. split; [reflexivity|].
  destruct (@decimal_acc_sign s 0 ltac:(lia) Hdigits) as (Hge & Hiff).
  split; [assumption|]. split.
  - rewrite Hiff. split; [intros [?|?]; [lia|assumption] | auto].
  - intros Hsafe. cbn [to_number]. rewrite Hdigits; cbn [andb].
    destruct (Z.leb_spec (decimal_acc 0 s) max_safe_integer); [reflexivity|lia].
Qed.

(** C6 as stated fails twice: the text "0" is accepted and is not a
    positive number of minutes; and when no interval is given the command
    does not get 15, the call is refused (the argument is required). *)
Lemma accepted_interval_may_be_zero :
  ~ (forall (s : string) (v : value) (n : Z),
       validate interval_argument s = Ok v ->
       to_number v = Some n ->
       0 < n)
  /\ receive interval_argument None <> Ok (VNum 15).
Proof.
  split.
  - intros Hpositive.
    specialize (Hpositive "0" (VStr "0") 0 eq_refl eq_refl). lia.
  - discriminate.
Qed.

Lemma accepted_interval_witness :
  VStr "30" = VStr "30" /\
  all_digits "30" = true /\
  0 <= decimal_acc 0 "30" /\
  (0 < decimal_acc 0 "30" <-> has_nonzero_digit "30" = true) /\
  (decimal_acc 0 "30" <= max_safe_integer ->
   to_number (VStr "30") = Some (decimal_acc 0 "30")).
Proof.
  apply (@accepted_interval_is_digits "30" (VStr "30")).
  - discriminate.
  - reflexivity.
Defined.

Example interval_validation :
  validate interval_argument "15" = Ok (VStr "15") /\
  validate interval_argument "" = Ok (VStr "") /\
  validate interval_argument "1.5" = Err "invalid argument value" /\
  validate interval_argument "-3" = Err "invalid argument value" /\
  validate target_argument "oldest" = Ok (VStr "oldest") /\
  validate target_argument "newest" = Err "invalid argument value" /\
  receive interval_argument (Some "15") = Ok (VStr "15") /\
  receive interval_argument None = Err "wrong number of arguments".
Proof. repeat split. Qed.

(* ===================================================================== *)
(** ** Concrete runs on the simulated site *)
(* ===================================================================== *)

Example oldest_of_three :
  res (@scrapeTrades Sim (SimDriver never 100) oldest_args
         (sim_state three_trades))
  = Ok [VStr "urlC"].
Proof. reflexivity. Qed.

(** Three listings, the second fails at its edit link: all three are
    attempted, and the report reads succeeded, failed, succeeded. *)
Example second_of_three_fails :
  let r := @updateTrades Sim (SimDriver (edit_fails_at "urlB") 700) all_args
             (map VStr three_trades) (sim_state three_trades) in
  res r = Ok tt /\
  attempted (emitted r) = [VStr "urlA"; VStr "urlB"; VStr "urlC"] /\
  cycle_report (emitted r) =
    [ mkBumpResult SUCCESS (Some 1) 3;
      mkBumpResult FAILURE (Some 2) 1;
      mkBumpResult SUCCESS (Some 3) 3 ].
Proof. cbv zeta. repeat split. Qed.

Lemma scrapeTrades_oldest_witness :
  res (@scrapeTrades Sim (SimDriver never 100) oldest_args
         (sim_state three_trades))
  = Ok [VStr (last three_trades "")].
Proof.
  apply (@scrapeTrades_oldest_returns_last Sim (SimDriver never 100)
           oldest_args (sim_state three_trades)
           (mkSim 100 (trades_url (VStr "joe")) three_trades)
           (mkSim 100 (trades_url (VStr "joe")) three_trades)
           three_trades).
  - reflexivity.
  - reflexivity.
  - reflexivity.
  - discriminate.
Defined.

Lemma scrapeTrades_all_witness :
  exists tradeUrls,
    res (@scrapeTrades Sim (SimDriver never 100) all_args
           (sim_state three_trades)) = Ok tradeUrls /\
    tradeUrls = map VStr three_trades /\
    length tradeUrls = length three_trades /\
    forall i href, nth_error three_trades i = Some href ->
                   nth_error tradeUrls i = Some (VStr href).
Proof.
  apply (@scrapeTrades_all_returns_unchanged Sim (SimDriver never 100)
           all_args (sim_state three_trades)
           (mkSim 100 (trades_url (VStr "joe")) three_trades)
           (mkSim 100 (trades_url (VStr "joe")) three_trades)
           three_trades).
  - reflexivity.
  - reflexivity.
  - reflexivity.
Defined.

(** C2 at its failing input: no listing and the target 'oldest'.
    Discovery resolves with [[undefined]], not with the empty array, and
    the executor then navigates to [undefined] and reports one failed
    bump. *)
Theorem oldest_of_nothing_is_undefined :
  let D := SimDriver undefined_url_throws 100 in
  let discovered := @scrapeTrades Sim D oldest_args (sim_state []) in
  res discovered = Ok [VUndefined] /\
  emitted (@updateTrades Sim D oldest_args [VUndefined] (final discovered)) =
    [ EClock 100; ESpinner SpStart MsgBumpingOldest;
      EPage (Goto VUndefined) (Some "TimeoutError");
      EClock 200; ESpinner SpFail (MsgFailedOldest 0) ].
Proof. cbv zeta. split; reflexivity. Qed.

(** C8 as stated fails: five calls of 399 ms each take 1995 ms, which
    rounds to 2 seconds, and the bump is reported with 1 second. *)
Lemma elapsed_seconds_not_rounded :
  emitted (@bump_trade Sim (SimDriver never 399) all_args 1 0
             (VStr "urlA") (sim_state []))
  = [ EClock 0; ESpinner SpStart (MsgBumping 1 1);
      resolved (Goto (VStr "urlA"));
      resolved (Click SelEditTrade); resolved WaitForNavigation;
      resolved (Click SelSaveTrade); resolved WaitForNavigation;
      EClock 1995; ESpinner SpSucceed (MsgBumped 1 1 1) ]
  /\ nearest_second (1995 - 0) = 2
  /\ diff_seconds 1995 0 <> nearest_second (1995 - 0).
Proof. repeat split. discriminate. Qed.

(** A login whose submit click times out, inside the bump command. *)
Lemma login_errors_witness :
  exists st',
    @run_bump Sim (SimDriver submit_times_out 100) 5 all_args (sim_state three_trades)
    = (st',
       emitted (@boot Sim (SimDriver submit_times_out 100) all_args
                  (sim_state three_trades))
         ++ emitted (@login Sim (SimDriver submit_times_out 100)
                       (final (@boot Sim (SimDriver submit_times_out 100)
                                 all_args (sim_state three_trades))))
         ++ [EUnhandledRejection "TimeoutError"])
    /\ timers st' = [].
Proof.
  apply (proj2 (@login_errors_propagate Sim (SimDriver submit_times_out 100)
                  all_args (sim_state three_trades))
           "TimeoutError" 5%nat).
  - reflexivity.
  - reflexivity.
  - reflexivity.
Defined.

Example scheduler_three_cycles :
  stages (snd (@run_bump Sim (SimDriver save_fails 100) 2 all_args
                 (sim_state ["urlA"])))
  = repeat Authenticating 7
      ++ [ Discovery; Bumping; Scheduled (Some 900000);
           Fired (Some 900000); Discovery; Bumping; Scheduled (Some 900000);
           Fired (Some 900000); Discovery; Bumping; Scheduled (Some 900000) ].
Proof. vm_compute. reflexivity. Qed.

(* ===================================================================== *)
(** ** More on updateTrades: calls made, lines numbered *)
(* ===================================================================== *)

Lemma page_calls_app (tr1 tr2 : list event) :
  page_calls (tr1 ++ tr2) = page_calls tr1 ++ page_calls tr2.
Proof. apply flat_map_app. Qed.

Lemma thrown_calls_app (tr1 tr2 : list event) :
  thrown_calls (tr1 ++ tr2) = thrown_calls tr1 ++ thrown_calls tr2.
Proof. apply flat_map_app. Qed.

Lemma started_app (tr1 tr2 : list event) :
  started (tr1 ++ tr2) = started tr1 ++ started tr2.
Proof. apply flat_map_app. Qed.

Lemma found_counts_app (tr1 tr2 : list event) :
  found_counts (tr1 ++ tr2) = found_counts tr1 ++ found_counts tr2.
Proof. apply flat_map_app. Qed.

Lemma failures_cons (line : BumpResult) (lines : list BumpResult) :
  failures (line :: lines) = failures [line] ++ failures lines.
Proof. unfold failures; cbn. destruct (br_outcome line); reflexivity. Qed.

Lemma bump_segment_calls args total index tradeUrl seg line :
  bump_segment args total index tradeUrl seg line ->
  (1 <= length (page_calls seg) <= 5)%nat /\
  length (thrown_calls seg) = length (failures [line]) /\
  (failures [line] = [] -> length (page_calls seg) = 5%nat).
Proof.
  intros [t0 t1 | t0 t1 k c e Hk].
  - cbn. repeat split; lia.
  - script_position k Hk; cbn; repeat split; try lia; discriminate.
Qed.

Lemma bump_segments_calls args total index tradeUrls tr lines :
  bump_segments args total index tradeUrls tr lines ->
  (length tradeUrls <= length (page_calls tr) <= 5 * length tradeUrls)%nat /\
  length (thrown_calls tr) = length (failures lines) /\
  (failures lines = [] ->
   length (page_calls tr) = (5 * length tradeUrls)%nat).
Proof.
  induction 1 as [|index tradeUrl rest seg tr line lines Hseg _ IH].
  - cbn. repeat split; lia.
  - destruct (bump_segment_calls Hseg) as (Hb & Ht & Hall).
    destruct IH as (IHb & IHt & IHall).
    rewrite page_calls_app, thrown_calls_app, !length_app.
    rewrite (failures_cons line lines), length_app. cbn [length].
    repeat split; try lia.
    intros Hnone. apply app_eq_nil in Hnone as [Hl Hr].
    rewrite (Hall Hl), (IHall Hr). lia.
Qed.

(** X1.  [updateTrades] on [n] URLs makes at least [n] and at most [5 n]
    page calls; as many of them throw as the report has failed lines (a
    failed bump throws once and is not retried); when no line failed it
    made all [5 n] calls; and it registers no timer. *)
Theorem updateTrades_call_accounting
  (W : Type) (D : Driver W) (args : Args) (tradeUrls : list value)
  (st : State W) :
  let r := updateTrades args tradeUrls st in
  let n := length tradeUrls in
  (n <= length (page_calls (emitted r)) <= 5 * n)%nat /\
  length (thrown_calls (emitted r))
    = length (failures (cycle_report (emitted r))) /\
  (failures (cycle_report (emitted r)) = [] ->
   length (page_calls (emitted r)) = (5 * n)%nat) /\
  timers (final r) = timers st.
Proof.
  destruct (updateTrades_spec args tradeUrls st)
    as (st' & tr & lines & Hrun & Ht & _ & Hsegs).
  cbv zeta. rewrite Hrun; cbn [final emitted].
  rewrite (bump_segments_report Hsegs).
  destruct (bump_segments_calls Hsegs) as (Hb & Hthrown & Hall).
  repeat split; try assumption; lia.
Qed.

Lemma bump_segment_numbered args total index tradeUrl seg line :
  bump_segment args total index tradeUrl seg line ->
  started seg = [bumping_message args (index + 1) total] /\
  br_humanIndex line = printed_index args index.
Proof.
  intros [t0 t1 | t0 t1 k c e Hk].
  - split; reflexivity.
  - script_position k Hk; split; reflexivity.
Qed.

Lemma bump_segments_numbered args total index tradeUrls tr lines :
  bump_segments args total index tradeUrls tr lines ->
  started tr =
    map (fun i => bumping_message args (i + 1) total)
        (count_from index (length tradeUrls)) /\
  map br_humanIndex lines =
    map (printed_index args) (count_from index (length tradeUrls)).
Proof.
  induction 1 as [|index tradeUrl rest seg tr line lines Hseg _ IH].
  - split; reflexivity.
  - destruct (bump_segment_numbered Hseg) as (Hs & Hi).
    destruct IH as (IHs & IHi).
    rewrite started_app, Hs, IHs. cbn [map length count_from app].
    rewrite Hi, IHi. split; reflexivity.
Qed.

(** X2.  The bumps of [updateTrades] are numbered by position: the [i]-th
    spinner (from 0) starts with the message for position [i + 1] of
    [tradeUrls.length], and the [i]-th report line carries the position
    [i + 1], or none when the target is 'oldest'; failed bumps keep their
    number, no position is skipped or repeated. *)
Theorem updateTrades_numbers_bumps
  (W : Type) (D : Driver W) (args : Args) (tradeUrls : list value)
  (st : State W) :
  let r := updateTrades args tradeUrls st in
  let n := length tradeUrls in
  started (emitted r) =
    map (fun index => bumping_message args (index + 1) (Z.of_nat n))
        (count_from 0 n) /\
  map br_humanIndex (cycle_report (emitted r)) =
    map (printed_index args) (count_from 0 n).
Proof.
  destruct (updateTrades_spec args tradeUrls st)
    as (st' & tr & lines & Hrun & _ & _ & Hsegs).
  cbv zeta. rewrite Hrun; cbn [emitted].
  rewrite (bump_segments_report Hsegs).
  exact (bump_segments_numbered Hsegs).
Qed.

(* ===================================================================== *)
(** ** Rejections that end the run *)
(* ===================================================================== *)

Section Rejections.
Context {W : Type} `{Driver W}.

(** [boot] rejects when the launch or the new page throws, and only then;
    it has then printed the banner and nothing else. *)
Lemma boot_rejected_inv (args : Args) (st : State W) (e : error) :
  res (boot args st) = Err e ->
  emitted (boot args st) = [EConsole MsgBanner; EPage Launch (Some e)] \/
  emitted (boot args st) =
    [EConsole MsgBanner; resolved Launch; EPage NewPage (Some e)].
Proof.
  unfold boot. unfold_js. cbn.
  next_call; [intros [= ->]; left; reflexivity|].
  next_call; [intros [= ->]; right; reflexivity|].
  discriminate.
Qed.

Lemma boot_report (args : Args) (st : State W) :
  cycle_report (emitted (boot args st)) = [].
Proof.
  unfold boot. unfold_js. cbn.
  next_call; [reflexivity|]. next_call; reflexivity.
Qed.

Lemma login_resolved_report (st : State W) :
  res (login st) = Ok tt -> cycle_report (emitted (login st)) = [].
Proof.
  intros Hres.
  destruct (login_spec st)
    as [(st' & Hrun & _) | (st' & k & c & e & _ & Hrun & _)];
    cbv zeta in Hrun; rewrite Hrun in *.
  - reflexivity.
  - discriminate Hres.
Qed.

(** A rejected [scrapeTrades] has started its spinner and navigated to the
    trade page, has reported no count and selected nothing. *)
Lemma scrapeTrades_rejected_inv (args : Args) (st : State W) (e : error) :
  res (scrapeTrades args st) = Err e ->
  timers (final (scrapeTrades args st)) = timers st /\
  stages (emitted (scrapeTrades args st)) = [Discovery] /\
  attempted (emitted (scrapeTrades args st))
    = [trades_url (username (prefs st))] /\
  cycle_report (emitted (scrapeTrades args st)) = [] /\
  found_counts (emitted (scrapeTrades args st)) = [].
Proof.
  unfold scrapeTrades. unfold_js. cbn -[trades_url].
  next_call; [intros _; repeat split|].
  destruct (evaluate_hrefs _) as [w2 [e'|hrefs]]; cbn -[trades_url].
  - intros _; repeat split.
  - discriminate.
Qed.

End Rejections.

(** X3.  When the browser cannot be launched or its page cannot be opened,
    [boot] rejects and the bump command ends there: the rejection is left
    unhandled, the one call that threw is the launch or the new page,
    nothing is navigated to, no stage of login, discovery, bumping or
    scheduling shows, and no timer is pending, however long one waits. *)
Theorem boot_rejection_ends_run
  (W : Type) (D : Driver W) (args : Args) (st : State W) (e : error)
  (n : nat) :
  timers st = [] ->
  res (boot args st) = Err e ->
  run_bump n args st =
    (final (boot args st), emitted (boot args st) ++ [EUnhandledRejection e]) /\
  timers (fst (run_bump n args st)) = [] /\
  (thrown_calls (snd (run_bump n args st)) = [(Launch, e)] \/
   thrown_calls (snd (run_bump n args st)) = [(NewPage, e)]) /\
  attempted (snd (run_bump n args st)) = [] /\
  stages (snd (run_bump n args st)) = [].
Proof.
  intros Hnone Hboot.
  assert (Ht : timers (final (boot args st)) = []).
  { rewrite boot_timers. exact Hnone. }
  assert (Hrun : run_bump n args st =
                 (final (boot args st),
                  emitted (boot args st) ++ [EUnhandledRejection e])).
  { unfold run_bump, bump_action. rewrite (bind_rejected _ _ _ Hboot).
    unfold unhandled; cbn [res final emitted].
    rewrite (event_loop_no_timer _ _ Ht), app_nil_r. reflexivity. }
  rewrite Hrun; cbn [fst snd].
  split; [reflexivity|]. split; [exact Ht|].
  destruct (boot_rejected_inv _ _ Hboot) as [-> | ->];
    repeat split; auto.
Qed.

(** X4.  When the first discovery rejects (boot and login having
    resolved), the bump command ends after it: login's stages and the
    discovery show, no bump is reported, no timer is registered, and the
    rejection is left unhandled, however long one waits. *)
Theorem first_discovery_rejection_ends_run
  (W : Type) (D : Driver W) (args : Args) (st : State W) (e : error)
  (n : nat) :
  timers st = [] ->
  res (boot args st) = Ok tt ->
  res (login (final (boot args st))) = Ok tt ->
  res (scrapeTrades args (final (login (final (boot args st))))) = Err e ->
  timers (fst (run_bump n args st)) = [] /\
  stages (snd (run_bump n args st)) = repeat Authenticating 7 ++ [Discovery] /\
  cycle_report (snd (run_bump n args st)) = [] /\
  exists tr, snd (run_bump n args st) = tr ++ [EUnhandledRejection e].
Proof.
  intros Hnone Hboot Hlogin Hscrape.
  destruct (login_resolved_inv _ Hlogin) as (Ht1 & _ & Hs1).
  destruct (scrapeTrades_rejected_inv _ _ Hscrape) as (Ht2 & Hs2 & _ & Hr2 & _).
  assert (Ht : timers (final (scrapeTrades args
                 (final (login (final (boot args st)))))) = []).
  { rewrite Ht2, Ht1, boot_timers. exact Hnone. }
  unfold run_bump, bump_action.
  rewrite (bind_resolved _ _ _ Hboot).
  rewrite (bind_resolved _ _ _ Hlogin).
  rewrite (bind_rejected _ _ _ Hscrape).
  unfold unhandled; cbn [res final emitted].
  rewrite (event_loop_no_timer _ _ Ht). cbn [fst snd]. rewrite app_nil_r.
  split; [exact Ht|].
  rewrite !stages_app, !cycle_report_app, boot_stages, boot_report, Hs1, Hs2, Hr2,
    (login_resolved_report _ Hlogin).
  split; [reflexivity|]. split; [reflexivity|].
  eexists. rewrite app_assoc. reflexivity.
Qed.

(** X5.  When the discovery of a later cycle rejects, that firing is the
    last: the timer fired, discovery started, nothing was bumped, no new
    timer was registered, and the rejection is left unhandled; further
    waiting adds nothing. *)
Theorem later_discovery_rejection_ends_loop
  (W : Type) (D : Driver W) (st : State W) (t : Timer) (e : error)
  (n : nat) :
  timers st = [t] ->
  res (scrapeTrades (timer_args t) (set_timers st [])) = Err e ->
  event_loop (S n) st = event_loop 1 st /\
  timers (fst (event_loop (S n) st)) = [] /\
  stages (snd (event_loop (S n) st)) = [Fired (delay t); Discovery] /\
  cycle_report (snd (event_loop (S n) st)) = [] /\
  exists tr, snd (event_loop (S n) st) = tr ++ [EUnhandledRejection e].
Proof.
  intros Hpending Hscrape.
  destruct (event_loop_discovery_rejected n _ Hpending Hscrape) as (Ht & Htr).
  destruct (event_loop_discovery_rejected 0 _ Hpending Hscrape) as (Ht0 & Htr0).
  destruct (scrapeTrades_rejected_inv _ _ Hscrape) as (_ & Hs & _ & Hr & _).
  assert (Hfst : fst (event_loop (S n) st) = fst (event_loop 1 st)).
  { cbn [event_loop]. rewrite Hpending.
    rewrite (timer_callback_rejected _ _ Hscrape).
    unfold unhandled; cbn [res final emitted].
    assert (Hn : timers (final (scrapeTrades (timer_args t) (set_timers st [])))
                 = []).
    { destruct (scrapeTrades_rejected_inv _ _ Hscrape) as (Htt & _).
      rewrite Htt. reflexivity. }
    rewrite (event_loop_no_timer n _ Hn). reflexivity. }
  split.
  - rewrite (surjective_pairing (event_loop (S n) st)),
      (surjective_pairing (event_loop 1 st)), Hfst, Htr, Htr0. reflexivity.
  - split; [exact Ht|]. rewrite Htr.
    split; [|split].
    + change (stages (ETimerFired (delay t) :: ?x))
        with (Fired (delay t) :: stages x).
      cbn [stages flat_map stage_of app].
      fold (stages (emitted (scrapeTrades (timer_args t) (set_timers st []))
                      ++ [EUnhandledRejection e])).
      rewrite stages_app, Hs. reflexivity.
    + cbn [cycle_report flat_map report_line app].
      fold (cycle_report (emitted (scrapeTrades (timer_args t) (set_timers st []))
                            ++ [EUnhandledRejection e])).
      rewrite cycle_report_app, Hr. reflexivity.
    + exists (ETimerFired (delay t)
                :: emitted (scrapeTrades (timer_args t) (set_timers st []))).
      reflexivity.
Qed.

(* ===================================================================== *)
(** ** A whole cycle: discovery, bumps, scheduling *)
(* ===================================================================== *)

Lemma bump_segment_found args total index tradeUrl seg line :
  bump_segment args total index tradeUrl seg line -> found_counts seg = [].
Proof.
  intros [t0 t1 | t0 t1 k c e Hk].
  - cbn. by_target args.
  - script_position k Hk; cbn; by_target args.
Qed.

Lemma bump_segments_found args total index tradeUrls tr lines :
  bump_segments args total index tradeUrls tr lines -> found_counts tr = [].
Proof.
  induction 1 as [|index tradeUrl rest seg tr line lines Hseg _ IH].
  - reflexivity.
  - rewrite found_counts_app, IH, (bump_segment_found Hseg). reflexivity.
Qed.

Section Cycle.
Context {W : Type} `{Driver W}.

(** The trace of the timer's callback when discovery resolves: the trace
    of discovery, one segment per URL it selected, the three events of
    scheduling. *)
Lemma timer_callback_trace (args : Args) (st : State W) (tradeUrls : list value) :
  res (scrapeTrades args st) = Ok tradeUrls ->
  exists tr lines t,
    res (timer_callback args st) = Ok tt /\
    emitted (timer_callback args st) =
      emitted (scrapeTrades args st) ++ tr
        ++ [ EClock t; ESpinner SpInfo (MsgRunAgain t (interval args));
             ESetTimeout (requested_delay args) ] /\
    bump_segments args (js_length tradeUrls) 0 tradeUrls tr lines.
Proof.
  intros Hscrape.
  destruct (updateTrades_spec args tradeUrls (final (scrapeTrades args st)))
    as (st2 & tr2 & lines & Hrun2 & _ & _ & Hsegs).
  destruct (scheduleUpdateTrades_spec args st2) as (w & t & _ & Hrun3).
  unfold timer_callback.
  rewrite (bind_resolved _ _ _ Hscrape).
  rewrite (bind_resolved _ _ _ (a := tt)) by (rewrite Hrun2; reflexivity).
  rewrite Hrun2; cbn [res final emitted]. rewrite Hrun3; cbn [res final emitted].
  exists tr2, lines, t. repeat split. exact Hsegs.
Qed.

(** What a cycle shows, given what discovery scraped. *)
Lemma timer_callback_scraped (args : Args) (st : State W) (w1 w2 : W)
  (hrefs : list string) :
  perform (Goto (trades_url (username (prefs st)))) (world st) = (w1, None) ->
  evaluate_hrefs w1 = (w2, inr hrefs) ->
  res (timer_callback args st) = Ok tt /\
  attempted (emitted (timer_callback args st)) =
    trades_url (username (prefs st)) :: select_target args (map VStr hrefs) /\
  length (cycle_report (emitted (timer_callback args st))) =
    length (select_target args (map VStr hrefs)) /\
  found_counts (emitted (timer_callback args st)) = [Z.of_nat (length hrefs)].
Proof.
  intros Hgoto Heval.
  pose proof (scrapeTrades_resolved args st Hgoto Heval) as Hrun.
  destruct (timer_callback_trace args st (tradeUrls := select_target args (map VStr hrefs)))
    as (tr & lines & t & Hres & Htr & Hsegs).
  { rewrite Hrun. reflexivity. }
  rewrite Htr, Hrun; cbn [emitted].
  rewrite !attempted_app, !cycle_report_app, !found_counts_app.
  rewrite (bump_segments_attempted Hsegs), (bump_segments_report Hsegs),
    (bump_segments_found Hsegs).
  split; [exact Hres|].
  split; [cbn -[trades_url]; rewrite app_nil_r; reflexivity|].
  split; [cbn; rewrite app_nil_r; exact (bump_segments_length Hsegs)|].
  cbn. unfold js_length. rewrite length_map. reflexivity.
Qed.

End Cycle.

(** X6.  A cycle with the target 'all', when the trade page loads and
    shows the anchors [hrefs]: the cycle resolves; it navigates to the
    trade page and then to each scraped URL once, in document order; it
    reports the count of the scraped anchors and one bump line per
    anchor. *)
Theorem cycle_bumps_all_scraped
  (W : Type) (D : Driver W) (args : Args) (st : State W) (w1 w2 : W)
  (hrefs : list string) :
  target args = VStr "all" ->
  perform (Goto (trades_url (username (prefs st)))) (world st) = (w1, None) ->
  evaluate_hrefs w1 = (w2, inr hrefs) ->
  res (timer_callback args st) = Ok tt /\
  attempted (emitted (timer_callback args st)) =
    trades_url (username (prefs st)) :: map VStr hrefs /\
  length (cycle_report (emitted (timer_callback args st))) = length hrefs /\
  found_counts (emitted (timer_callback args st)) = [Z.of_nat (length hrefs)].
Proof.
  intros Ht Hgoto Heval.
  destruct (timer_callback_scraped args st Hgoto Heval) as (Hres & Ha & Hl & Hf).
  rewrite (select_target_all args _ Ht) in Ha, Hl.
  rewrite length_map in Hl. repeat split; assumption.
Qed.

(** X7.  A cycle with the target 'oldest', when the trade page loads and
    shows the anchors [hrefs]: the spinner still reports the count of all
    scraped anchors, and exactly one bump is attempted and reported,
    whatever that count: of the last anchor when there is one, of
    [undefined] when there is none. *)
Theorem cycle_bumps_one_oldest
  (W : Type) (D : Driver W) (args : Args) (st : State W) (w1 w2 : W)
  (hrefs : list string) :
  target args = VStr "oldest" ->
  perform (Goto (trades_url (username (prefs st)))) (world st) = (w1, None) ->
  evaluate_hrefs w1 = (w2, inr hrefs) ->
  res (timer_callback args st) = Ok tt /\
  attempted (emitted (timer_callback args st)) =
    [ trades_url (username (prefs st));
      match hrefs with
      | [] => VUndefined
      | _ :: _ => VStr (last hrefs "")
      end ] /\
  length (cycle_report (emitted (timer_callback args st))) = 1%nat /\
  found_counts (emitted (timer_callback args st)) = [Z.of_nat (length hrefs)].
Proof.
  intros Ht Hgoto Heval.
  destruct (timer_callback_scraped args st Hgoto Heval) as (Hres & Ha & Hl & Hf).
  destruct hrefs as [|href hrefs].
  - cbn [map] in Ha, Hl. rewrite (select_target_oldest_nothing args Ht) in Ha, Hl.
    repeat split; assumption.
  - rewrite (select_target_oldest args Ht) in Ha, Hl by discriminate.
    repeat split; assumption.
Qed.

(* ===================================================================== *)
(** ** Who reads the stored credentials *)
(* ===================================================================== *)

Section Oblivious.
Context {W : Type} `{Driver W}.

Lemma ignores_prefs_ret (A : Type) (a : A) : ignores_prefs (@ret W A a).
Proof. intros st p. reflexivity. Qed.

Lemma ignores_prefs_bind (A B : Type) (m : M W A) (f : A -> M W B) :
  ignores_prefs m -> (forall a, ignores_prefs (f a)) -> ignores_prefs (bind m f).
Proof.
  intros Hm Hf st p. unfold bind. rewrite (Hm st p).
  destruct (m st) as [[a|e] st1 tr1]; cbn; [|reflexivity].
  rewrite (Hf a st1 p). destruct (f a st1); reflexivity.
Qed.

Lemma ignores_prefs_try_catch (A : Type) (m : M W A) (h : error -> M W A) :
  ignores_prefs m -> (forall e, ignores_prefs (h e)) ->
  ignores_prefs (try_catch m h).
Proof.
  intros Hm Hh st p. unfold try_catch. rewrite (Hm st p).
  destruct (m st) as [[a|e] st1 tr1]; cbn; [reflexivity|].
  rewrite (Hh e st1 p). destruct (h e st1); reflexivity.
Qed.

Lemma ignores_prefs_spinner (a : spinner_action) (m : message) :
  ignores_prefs (@spinner W a m).
Proof. intros st p. reflexivity. Qed.

Lemma ignores_prefs_console_log (m : message) : ignores_prefs (@console_log W m).
Proof. intros st p. reflexivity. Qed.

Lemma ignores_prefs_page (c : call) : ignores_prefs (page c).
Proof.
  intros st p. unfold page; cbn. destruct (perform c (world st)). reflexivity.
Qed.

Lemma ignores_prefs_page_evaluate : ignores_prefs page_evaluate.
Proof.
  intros st p. unfold page_evaluate; cbn.
  destruct (evaluate_hrefs (world st)). reflexivity.
Qed.

Lemma ignores_prefs_moment : ignores_prefs moment.
Proof.
  intros st p. unfold moment; cbn. destruct (read_clock (world st)). reflexivity.
Qed.

Lemma ignores_prefs_setTimeout (args : Args) (d : option Z) :
  ignores_prefs (@setTimeout W args d).
Proof. intros st p. reflexivity. Qed.

Lemma ignores_prefs_for_entries (body : Z -> value -> M W unit)
  (entries : list value) :
  (forall index tradeUrl, ignores_prefs (body index tradeUrl)) ->
  forall index, ignores_prefs (for_entries body index entries).
Proof.
  intros Hbody. induction entries as [|tradeUrl rest IH]; intros index; cbn.
  - apply ignores_prefs_ret.
  - apply ignores_prefs_bind; [apply Hbody | intros _; apply IH].
Qed.

End Oblivious.

Create HintDb oblivious.
#[local] Hint Resolve ignores_prefs_ret ignores_prefs_spinner
  ignores_prefs_console_log ignores_prefs_page ignores_prefs_page_evaluate
  ignores_prefs_moment ignores_prefs_setTimeout : oblivious.

Ltac oblivious :=
  repeat first
    [ apply ignores_prefs_bind; [|intro]
    | apply ignores_prefs_try_catch; [|intro]
    | apply ignores_prefs_for_entries; intros ];
  auto with oblivious.

(** X8.  [boot], [updateTrades] and [scheduleUpdateTrades] never read the
    stored credentials: with any other record in their place they make the
    same calls, print the same lines, end the same way and leave that
    record untouched. *)
Theorem executor_and_scheduler_ignore_credentials
  (W : Type) (D : Driver W) (args : Args) :
  ignores_prefs (boot args) /\
  (forall tradeUrls, ignores_prefs (updateTrades args tradeUrls)) /\
  ignores_prefs (scheduleUpdateTrades args).
Proof.
  split; [unfold boot; oblivious|].
  split; [intros tradeUrls; unfold updateTrades; oblivious|].
  unfold scheduleUpdateTrades; oblivious.
Qed.

(** X9.  [scrapeTrades] reads the username only, [login] the email address
    and the password only: a record that agrees on these makes no
    difference to what they do. *)
Theorem discovery_and_login_read_their_fields
  (W : Type) (D : Driver W) (args : Args) (st : State W) (p : Prefs) :
  (username p = username (prefs st) ->
   scrapeTrades args (set_prefs st p) =
     mkRun (res (scrapeTrades args st))
           (set_prefs (final (scrapeTrades args st)) p)
           (emitted (scrapeTrades args st)))
  /\
  (emailAddress p = emailAddress (prefs st) ->
   password p = password (prefs st) ->
   login (set_prefs st p) =
     mkRun (res (login st)) (set_prefs (final (login st)) p)
           (emitted (login st))).
Proof.
  split.
  - intros Hu. destruct st as [w [u e pw] ts], p as [u' e' pw'].
    cbn in Hu; subst u'.
    unfold scrapeTrades. unfold_js. cbn -[trades_url].
    next_call; [reflexivity|].
    destruct (evaluate_hrefs _) as [w2 [e0|hrefs]]; reflexivity.
  - intros He Hp. destruct st as [w [u e pw] ts], p as [u' e' pw'].
    cbn in He, Hp; subst e' pw'.
    unfold login. unfold_js. cbn.
    do 7 (next_call; [reflexivity|]). reflexivity.
Qed.

Lemma discovery_and_login_witness :
  @scrapeTrades Sim (SimDriver never 100) all_args
     (set_prefs (sim_state three_trades)
        (mkPrefs (VStr "joe") (VStr "other@example.com") VUndefined))
  = mkRun (res (@scrapeTrades Sim (SimDriver never 100) all_args
                  (sim_state three_trades)))
          (set_prefs (final (@scrapeTrades Sim (SimDriver never 100) all_args
                               (sim_state three_trades)))
             (mkPrefs (VStr "joe") (VStr "other@example.com") VUndefined))
          (emitted (@scrapeTrades Sim (SimDriver never 100) all_args
                      (sim_state three_trades)))
  /\
  @login Sim (SimDriver never 100)
     (set_prefs (sim_state three_trades)
        (mkPrefs VUndefined (VStr "joe@example.com") (VStr "hunter2")))
  = mkRun (res (@login Sim (SimDriver never 100) (sim_state three_trades)))
          (set_prefs (final (@login Sim (SimDriver never 100)
                               (sim_state three_trades)))
             (mkPrefs VUndefined (VStr "joe@example.com") (VStr "hunter2")))
          (emitted (@login Sim (SimDriver never 100) (sim_state three_trades))).
Proof.
  split.
  - apply (proj1 (@discovery_and_login_read_their_fields Sim
                    (SimDriver never 100) all_args (sim_state three_trades)
                    (mkPrefs (VStr "joe") (VStr "other@example.com") VUndefined))).
    reflexivity.
  - apply (proj2 (@discovery_and_login_read_their_fields Sim
                    (SimDriver never 100) all_args (sim_state three_trades)
                    (mkPrefs VUndefined (VStr "joe@example.com") (VStr "hunter2")))).
    + reflexivity.
    + reflexivity.
Defined.

Section RoundTrip.
Context {W : Type} `{Driver W}.

Lemma scrapeTrades_attempted (args : Args) (st : State W) :
  attempted (emitted (scrapeTrades args st))
    = [trades_url (username (prefs st))].
Proof.
  unfold scrapeTrades. unfold_js. cbn -[trades_url].
  next_call; [reflexivity|].
  destruct (evaluate_hrefs _) as [w2 [e|hrefs]]; reflexivity.
Qed.

Lemma login_calls (st : State W) :
  (exists k : nat,
     (1 <= k <= 7)%nat /\
     map fst (page_calls (emitted (login st)))
       = firstn k (login_script (prefs st))) /\
  (res (login st) = Ok tt ->
   map fst (page_calls (emitted (login st))) = login_script (prefs st)).
Proof.
  destruct (login_spec st)
    as [(st' & Hrun & _) | (st' & k & c & e & Hk & Hrun & _)];
    cbv zeta in Hrun; rewrite Hrun; cbn [res emitted].
  - split; [exists 7%nat; split; [lia | reflexivity] | reflexivity].
  - split; [|discriminate].
    exists (S k).
    destruct k as [|[|[|[|[|[|[|k]]]]]]]; cbn in Hk;
      [ injection Hk as <- .. | destruct k; discriminate Hk ];
      (split; [lia | reflexivity]).
Qed.

End RoundTrip.

(** X10.  Round trip through the stored record: after [setLogin] has
    stored the answers of a successful prompt, a run that starts with the
    stored record logs in with exactly the stored email address and
    password (typed into the email and the password field, in the order of
    [login]'s script, up to the first call that throws) and looks for the
    trades of exactly the stored username. *)
Theorem saved_credentials_are_the_ones_used
  (W : Type) (D : Driver W) (args : Args) (credentials : Credentials)
  (st0 st : State W) :
  prefs st = prefs (final (setLogin None credentials st0)) ->
  prefs st = saved credentials /\
  (exists k : nat,
     (1 <= k <= 7)%nat /\
     map fst (page_calls (emitted (login st))) =
       firstn k
         [ Goto login_url;
           Focus SelEmail; TypeText (VStr (c_emailAddress credentials));
           Focus SelPassword; TypeText (VStr (c_password credentials));
           Click SelLoginSubmit; WaitForNavigation ]) /\
  (res (login st) = Ok tt ->
   map fst (page_calls (emitted (login st))) =
     [ Goto login_url;
       Focus SelEmail; TypeText (VStr (c_emailAddress credentials));
       Focus SelPassword; TypeText (VStr (c_password credentials));
       Click SelLoginSubmit; WaitForNavigation ]) /\
  attempted (emitted (scrapeTrades args st)) =
    [trades_url (VStr (c_username credentials))].
Proof.
  intros Hprefs.
  assert (Hsaved : prefs st = saved credentials).
  { rewrite Hprefs. destruct st0; reflexivity. }
  destruct (login_calls st) as (Hprefix & Hall).
  rewrite Hsaved in Hprefix, Hall.
  split; [exact Hsaved|]. split; [exact Hprefix|]. split; [exact Hall|].
  rewrite scrapeTrades_attempted, Hsaved. reflexivity.
Qed.

Lemma saved_credentials_witness :
  prefs (mkState (mkSim 0 VUndefined three_trades)
                 (saved (mkCredentials "ann" "ann@example.com" "s3cret")) [])
    = saved (mkCredentials "ann" "ann@example.com" "s3cret") /\
  (exists k : nat,
     (1 <= k <= 7)%nat /\
     map fst (page_calls (emitted (@login Sim (SimDriver never 100)
        (mkState (mkSim 0 VUndefined three_trades)
                 (saved (mkCredentials "ann" "ann@example.com" "s3cret")) [])))) =
       firstn k
         [ Goto login_url;
           Focus SelEmail; TypeText (VStr "ann@example.com");
           Focus SelPassword; TypeText (VStr "s3cret");
           Click SelLoginSubmit; WaitForNavigation ]) /\
  (res (@login Sim (SimDriver never 100)
        (mkState (mkSim 0 VUndefined three_trades)
                 (saved (mkCredentials "ann" "ann@example.com" "s3cret")) []))
     = Ok tt ->
   map fst (page_calls (emitted (@login Sim (SimDriver never 100)
        (mkState (mkSim 0 VUndefined three_trades)
                 (saved (mkCredentials "ann" "ann@example.com" "s3cret")) [])))) =
     [ Goto login_url;
       Focus SelEmail; TypeText (VStr "ann@example.com");
       Focus SelPassword; TypeText (VStr "s3cret");
       Click SelLoginSubmit; WaitForNavigation ]) /\
  attempted (emitted (@scrapeTrades Sim (SimDriver never 100) all_args
        (mkState (mkSim 0 VUndefined three_trades)
                 (saved (mkCredentials "ann" "ann@example.com" "s3cret")) []))) =
    [trades_url (VStr "ann")].
Proof.
  apply (@saved_credentials_are_the_ones_used Sim (SimDriver never 100) all_args
           (mkCredentials "ann" "ann@example.com" "s3cret")
           (sim_state [])).
  reflexivity.
Defined.

(* ===================================================================== *)
(** ** More on the command line *)
(* ===================================================================== *)

Lemma digits_delay (args : Args) (s : string) :
  interval args = VStr s ->
  all_digits s = true ->
  (1 <= decimal_acc 0 s <= 35791 ->
   requested_delay args = Some (60000 * decimal_acc 0 s) /\
   effective_delay (requested_delay args) = 60000 * decimal_acc 0 s) /\
  (decimal_acc 0 s = 0 \/ 35791 < decimal_acc 0 s ->
   effective_delay (requested_delay args) = 1).
Proof.
  intros Hinterval Hdigits.
  unfold requested_delay, to_number. rewrite Hinterval, Hdigits; cbn [andb].
  unfold js_mul, effective_delay, max_safe_integer, TIMEOUT_MAX.
  split; intros Hrange.
  - destruct (Z.leb_spec (decimal_acc 0 s) 9007199254740991); [|lia].
    destruct (Z.leb_spec (Z.abs (60000 * decimal_acc 0 s)) 9007199254740991);
      [|lia].
    split; [reflexivity|].
    destruct (Z.leb_spec 1 (60000 * decimal_acc 0 s)); [|lia].
    destruct (Z.leb_spec (60000 * decimal_acc 0 s) 2147483647); [|lia].
    reflexivity.
  - destruct (Z.leb_spec (decimal_acc 0 s) 9007199254740991); [|reflexivity].
    destruct (Z.leb_spec (Z.abs (60000 * decimal_acc 0 s)) 9007199254740991);
      [|reflexivity].
    destruct (Z.leb_spec 1 (60000 * decimal_acc 0 s)); [|reflexivity].
    destruct (Z.leb_spec (60000 * decimal_acc 0 s) 2147483647); [lia|].
    reflexivity.
Qed.

(** X12.  From the command line to the timer: for an interval text the
    validation accepts, of decimal value [n], [scheduleUpdateTrades]
    registers one timer, asked for [1000 * 60 * n] ms.  For [n] from 1 to
    35791 that is exactly [60000 n] ms and the delay Node applies; for
    [n = 0] (a text with no digit other than 0) and for [n] from 35792 on
    (a delay above 2^31 - 1 ms) Node applies a delay of 1 ms. *)
Theorem accepted_interval_sets_delay
  (W : Type) (D : Driver W) (s : string) (v : value) (target_ : value)
  (st : State W) :
  validate interval_argument s = Ok v ->
  let args := mkArgs target_ v in
  let n := decimal_acc 0 s in
  res (scheduleUpdateTrades args st) = Ok tt /\
  timers (final (scheduleUpdateTrades args st)) =
    timers st ++ [mkTimer (requested_delay args) args] /\
  (1 <= n <= 35791 ->
   requested_delay args = Some (60000 * n) /\
   effective_delay (requested_delay args) = 60000 * n) /\
  (n = 0 \/ 35791 < n -> effective_delay (requested_delay args) = 1) /\
  (n = 0 <-> has_nonzero_digit s = false).
Proof.
  unfold validate, interval_argument; cbn [arg_validator].
  destruct (all_digits s) eqn:Hdigits; [|discriminate].
  intros [= <-].
  destruct (@decimal_acc_sign s 0 ltac:(lia) Hdigits) as (Hge & Hiff).
  destruct (scheduleUpdateTrades_spec (mkArgs target_ (VStr s)) st)
    as (w & t & _ & Hrun).
  destruct (@digits_delay (mkArgs target_ (VStr s)) s eq_refl Hdigits)
    as (Hin & Hout).
  rewrite Hrun; cbn [res final timers].
  split; [reflexivity|]. split; [reflexivity|].
  split; [exact Hin|]. split; [exact Hout|].
  destruct (has_nonzero_digit s).
  - split; [intros Hz | discriminate].
    assert (0 < decimal_acc 0 s) by (apply Hiff; right; reflexivity). lia.
  - split; [reflexivity | intros _].
    destruct (Z.eq_dec (decimal_acc 0 s) 0) as [Hz|Hnz]; [exact Hz|].
    assert (0 < decimal_acc 0 s) as Hpos by lia.
    apply Hiff in Hpos as [Hpos|Hpos]; [lia | discriminate].
Qed.

Lemma accepted_interval_delay_witness :
  effective_delay (requested_delay (mkArgs (VStr "all") (VStr "35792"))) = 1 /\
  effective_delay (requested_delay (mkArgs (VStr "all") (VStr "35791")))
    = 2147460000.
Proof.
  split.
  - apply (@accepted_interval_sets_delay Sim (SimDriver never 100)
             "35792" (VStr "35792") (VStr "all") (sim_state []) eq_refl).
    right. reflexivity.
  - apply (@accepted_interval_sets_delay Sim (SimDriver never 100)
             "35791" (VStr "35791") (VStr "all") (sim_state []) eq_refl).
    split; discriminate.
Defined.

(* ===================================================================== *)
(** ** Further concrete runs *)
(* ===================================================================== *)

Lemma boot_rejection_witness :
  stages (snd (@run_bump Sim (SimDriver launch_fails 100) 4 all_args
                 (sim_state three_trades))) = [].
Proof.
  apply (@boot_rejection_ends_run Sim (SimDriver launch_fails 100) all_args
           (sim_state three_trades) "TimeoutError" 4).
  - reflexivity.
  - reflexivity.
Defined.

Lemma first_discovery_rejection_witness :
  stages (snd (@run_bump Sim (SimDriver trade_page_down 100) 4 all_args
                 (sim_state three_trades)))
  = repeat Authenticating 7 ++ [Discovery].
Proof.
  apply (@first_discovery_rejection_ends_run Sim (SimDriver trade_page_down 100)
           all_args (sim_state three_trades) "TimeoutError" 4).
  - reflexivity.
  - reflexivity.
  - reflexivity.
  - reflexivity.
Defined.

Lemma later_discovery_rejection_witness :
  stages (snd (@event_loop Sim (SimDriver trade_page_down 100) 5
                 (sim_waiting three_trades all_args)))
  = [Fired (Some 900000); Discovery].
Proof.
  apply (@later_discovery_rejection_ends_loop Sim (SimDriver trade_page_down 100)
           (sim_waiting three_trades all_args)
           (mkTimer (requested_delay all_args) all_args) "TimeoutError" 4).
  - reflexivity.
  - reflexivity.
Defined.

Lemma cycle_all_witness :
  attempted (emitted (@timer_callback Sim (SimDriver save_fails 100) all_args
                        (sim_state three_trades)))
  = trades_url (VStr "joe") :: map VStr three_trades.
Proof.
  apply (@cycle_bumps_all_scraped Sim (SimDriver save_fails 100) all_args
           (sim_state three_trades)
           (mkSim 100 (trades_url (VStr "joe")) three_trades)
           (mkSim 100 (trades_url (VStr "joe")) three_trades)
           three_trades).
  - reflexivity.
  - reflexivity.
  - reflexivity.
Defined.

Lemma cycle_oldest_witness :
  length (cycle_report
            (emitted (@timer_callback Sim (SimDriver never 100) oldest_args
                        (sim_state three_trades)))) = 1%nat /\
  found_counts (emitted (@timer_callback Sim (SimDriver never 100) oldest_args
                           (sim_state three_trades))) = [3].
Proof.
  apply (@cycle_bumps_one_oldest Sim (SimDriver never 100) oldest_args
           (sim_state three_trades)
           (mkSim 100 (trades_url (VStr "joe")) three_trades)
           (mkSim 100 (trades_url (VStr "joe")) three_trades)
           three_trades).
  - reflexivity.
  - reflexivity.
  - reflexivity.
Defined.

(* ===================================================================== *)
(** ** The scheduler's loop, firing by firing *)
(* ===================================================================== *)

Section Firing.
Context {W : Type} `{Driver W}.








End Firing.



